(** * Wind-tunnel data reduction ([dataProcess.py])

    The functions of [dataProcess.py] that reduce the raw balance readings,
    [q2v], [force2coeff], [NA2LD], [momentTransfer] and [datasplit], are
    embedded below and the statements of the specification are settled
    against them.

    Conventions of the embedding:
    - a Python [float] is idealised as a real number ([R]): rounding,
      overflow, underflow, infinities and not-a-number values are outside
      the model; [force2coeff] is embedded a second time on binary64
      numbers (module [Binary64]), where the underflow of its divisor
      shows; [math.cos]
      and [math.sin] are [cos] and [sin], [math.radians x] is
      [x * (PI / 180)], and [math.sqrt] raises on a negative argument;
    - a Python list, or a pandas column (which the code only reads by
      position, or scales as a whole), is a [list]; [l[i]] is the lookup
      [l !! i], and an index out of range raises;
    - an exception that escapes a function is the outer [None] of its
      [option] result; Python's [None] stored in a list is the inner [None]
      of a [list (option R)];
    - a list that is mutated through several names lives in a [heap], and
      the names are references into it. *)

From Stdlib Require Import Reals Lra Lia Classical_Prop.
From Stdlib Require Floats.
From stdpp Require Import base option list strings.

Open Scope R_scope.

(** * Part 1: the program *)

(** ** Exceptions, loops and the heap of Python lists *)

(** [for i in is: body]: run [body] on each index in turn, threading the
    state; an exception in the body leaves the loop. *)
Fixpoint for_each {S : Type} (body : nat -> S -> option S)
    (idx : list nat) (s : S) : option S :=
  match idx with
  | [] => Some s
  | i :: idx' =>
      match body i s with
      | Some s' => for_each body idx' s'
      | None => None
      end
  end.

(** Python's [range(a, b)]. *)
Definition range (a b : nat) : list nat := seq a (b - a).

(** [l[i] = v] on a Python list: IndexError when [i] is out of range. *)
Definition setitem {V : Type} (l : list V) (i : nat) (v : V) : option (list V) :=
  if decide (i < length l)%nat then Some (<[i := v]> l) else None.

(** The heap: every cell is one Python list of numbers. *)
Definition loc := nat.
Definition heap := list (list R).

Definition alloc (h : heap) (l : list R) : loc * heap := (length h, h ++ [l]).

(** [r[i]] through a reference. *)
Definition heap_get (h : heap) (r : loc) (i : nat) : option R :=
  match h !! r with
  | Some l => l !! i
  | None => None
  end.

(** [r[i] = v] through a reference. *)
Definition heap_set (h : heap) (r : loc) (i : nat) (v : R) : option heap :=
  match h !! r with
  | Some l =>
      match setitem l i v with
      | Some l' => Some (<[r := l']> h)
      | None => None
      end
  | None => None
  end.

(** ** Constants and library functions *)

(** [psf2pa = 0.020885] (module level). *)
Definition psf2pa : R := 0.020885.

(** [lbf2N] and [inlbs2Nm] of [datasplit]. *)
Definition lbf2N : R := 4.44822.
Definition inlbs2Nm : R := 0.1129848333.

(** [math.radians]. *)
Definition radians (x : R) : R := x * (PI / 180).

(** [math.sqrt]: ValueError (math domain error) on a negative argument. *)
Definition math_sqrt (x : R) : option R :=
  if Rle_dec 0 x then Some (sqrt x) else None.

(** [x / y] with a divisor computed from the data: a zero divisor is a
    division by zero (ZeroDivisionError on Python floats).  Divisions by a
    literal constant are written with [/] directly. *)
Definition py_div (x y : R) : option R :=
  if Req_dec_T y 0 then None else Some (x / y).

(** A pandas column times, or divided by, a scalar. *)
Definition col_mul (c : list R) (k : R) : list R := (fun x => x * k) <$> c.
Definition col_div (c : list R) (k : R) : list R := (fun x => x / k) <$> c.

(** ** [q2v] *)

(** The source's gas constant [R] is [Rgas] here ([R] is the type of the
    reals). *)
Definition q2v (q : list R) : option (list R) :=
  let T := 296.15 in
  let p := 100914 in
  let Rgas := 287 in
  let vel := replicate (length q) 0 in
  for_each (fun i vel =>
              match q !! i with
              | Some qi =>
                  match math_sqrt ((2 * Rabs (qi / psf2pa) * Rgas * T) / p) with
                  | Some v => setitem vel i v
                  | None => None
                  end
              | None => None
              end)
           (range 0 (length q)) vel.

(** ** [force2coeff] *)

Definition force2coeff (force q : list R) : option (list (option R)) :=
  let n := length force in
  let S := 0.01 in
  let coefficient := replicate n (Some 0) in
  for_each (fun i coefficient =>
              match q !! i with
              | Some qi =>
                  if Req_dec_T qi 0 then setitem coefficient i None
                  else
                    match force !! i with
                    | Some fi =>
                        match py_div fi (qi * S) with
                        | Some c => setitem coefficient i (Some c)
                        | None => None
                        end
                    | None => None
                    end
              | None => None
              end)
           (range 0 n) coefficient.

(** ** [NA2LD] *)

(** One pass of the loop body.  The three names are references: each
    subscript reads or writes the heap cell its name points to. *)
Definition NA2LD_body (N A alphaDeg : list R)
    (liftForce dragForce alphaRad : loc) (i : nat) (h : heap) : option heap :=
  a ← alphaDeg !! i;
  h1 ← heap_set h alphaRad i (radians a);
  Ni ← N !! i;
  c ← heap_get h1 alphaRad i;
  Ai ← A !! i;
  s ← heap_get h1 alphaRad i;
  h2 ← heap_set h1 liftForce i (Ni * cos c - Ai * sin s);
  Ni' ← N !! i;
  s' ← heap_get h2 alphaRad i;
  Ai' ← A !! i;
  c' ← heap_get h2 alphaRad i;
  heap_set h2 dragForce i (Ni' * sin s' + Ai' * cos c').

Definition NA2LD (N A alphaDeg : list R) : option (list R * list R) :=
  let n := length N in
  let '(liftForce, h) := alloc [] (replicate n 0) in
  let dragForce := liftForce in
  let alphaRad := liftForce in
  h' ← for_each (NA2LD_body N A alphaDeg liftForce dragForce alphaRad)
                (range 0 n) h;
  lift ← h' !! liftForce;
  drag ← h' !! dragForce;
  Some (lift, drag).

(** ** [momentTransfer] *)

Definition momentTransfer (moment normal : list R) (b : R) : option (list R) :=
  let A := 28.829 / 1000 in
  let D := 71.04 / 1000 in
  let n := length moment in
  let C := D - (b / 1000) in
  let new_moment := replicate n 0 in
  for_each (fun i new_moment =>
              match moment !! i, normal !! i with
              | Some mi, Some ni => setitem new_moment i (mi - (A + C) * ni)
              | _, _ => None
              end)
           (range 0 n) new_moment.

(** ** [Data] and [datasplit] *)

(** One ingested table: the columns [datasplit] reads, by header. *)
Record DataFrame : Type := mkDataFrame {
  col_Alpha : list R;   (* 'Alpha' *)
  col_NF : list R;      (* 'NF/SF' *)
  col_AF : list R;      (* 'AF/AF2' *)
  col_PM : list R;      (* 'PM/YM' *)
  col_q : list R        (* 'q' *)
}.

(** [class Data]. *)
Record Data : Type := mkData {
  X : list R;
  NF : list R;
  AF : list R;
  PM : list R;
  CL : list (option R);
  CD : list (option R)
}.

(** [obj.PM = pm]. *)
Definition set_PM (d : Data) (pm : list R) : Data :=
  mkData (X d) (NF d) (AF d) pm (CL d) (CD d).

(** An entry of the result list: the [0] it is initialised with, or an
    object of class [Data]. *)
Inductive slot : Type :=
| Zero
| Obj (d : Data).

Definition diameters : list R := [74.82; 74.82; 75.48; 75.40; 76.21].

Definition B : list R := [98.42; 98.42; 99.27; 127.00; 146.92].

(** [list[i].PM = momentTransfer(list[i].PM, list[i].NF, B[i])]; the source's
    variable [list] is [lst] here. *)
Definition transfer_PM (lst : list slot) (i : nat) : option (list slot) :=
  s ← lst !! i;
  match s with
  | Obj d =>
      b ← B !! i;
      pm ← momentTransfer (PM d) (NF d) b;
      Some (<[i := Obj (set_PM d pm)]> lst)
  | Zero => None
  end.

Definition datasplit (data : list DataFrame) : option (list slot) :=
  let n := length data in
  d0 ← data !! 0%nat;
  '(lF, dF) ← NA2LD (col_mul (col_NF d0) lbf2N) (col_mul (col_AF d0) lbf2N)
                    (col_Alpha d0);
  let lst := replicate n Zero in
  cl ← force2coeff lF (col_div (col_q d0) psf2pa);
  cd ← force2coeff dF (col_div (col_q d0) psf2pa);
  lst ← setitem lst 0
         (Obj (mkData (col_Alpha d0)
                      (col_mul (col_NF d0) lbf2N)
                      (col_mul (col_AF d0) lbf2N)
                      (col_mul (col_PM d0) inlbs2Nm)
                      cl cd));
  lst ← transfer_PM lst 0;
  for_each (fun i lst =>
              di ← data !! i;
              x ← q2v (col_q di);
              cl ← force2coeff (col_mul (col_NF di) lbf2N)
                               (col_div (col_q di) psf2pa);
              cd ← force2coeff (col_mul (col_AF di) lbf2N)
                               (col_div (col_q di) psf2pa);
              lst ← setitem lst i
                     (Obj (mkData x
                                  (col_mul (col_NF di) lbf2N)
                                  (col_mul (col_AF di) lbf2N)
                                  (col_mul (col_PM di) inlbs2Nm)
                                  cl cd));
              transfer_PM lst i)
           (range 1 n) lst.

(** * Part 2: the vocabulary of the statements *)

(** ** What one pass of each loop stores *)

(** A loop body that computes a value from the index alone and stores it at
    that index. *)
Definition fill {V : Type} (g : nat -> option V) (i : nat) (l : list V)
    : option (list V) :=
  match g i with
  | Some v => setitem l i v
  | None => None
  end.

(** The velocity [q2v] stores for one sample. *)
Definition q2v_value (qi : R) : R :=
  sqrt ((2 * Rabs (qi / psf2pa) * 287 * 296.15) / 100914).

(** The entry [force2coeff] stores for one sample. *)
Definition force2coeff_value (fi qi : R) : option R :=
  if Req_dec_T qi 0 then None else Some (fi / (qi * 0.01)).

(** The number left in the shared list by one pass of [NA2LD]: the cell
    first holds the angle in radians, then the lift expression, and the drag
    expression is evaluated on that lift value. *)
Definition NA2LD_value (Ni Ai a : R) : R :=
  let lift := Ni * cos (radians a) - Ai * sin (radians a) in
  Ni * sin lift + Ai * cos lift.

(** The entry [momentTransfer] stores for one sample. *)
Definition momentTransfer_value (mi ni b : R) : R :=
  mi - (28.829 / 1000 + (71.04 / 1000 - b / 1000)) * ni.

(** The value [force2coeff] computes for index [i], or the exception. *)
Definition force2coeff_at (force q : list R) (i : nat) : option (option R) :=
  qi ← q !! i;
  if Req_dec_T qi 0 then Some None
  else fi ← force !! i; c ← py_div fi (qi * 0.01); Some (Some c).

(** The value [momentTransfer] computes for index [i], or the exception. *)
Definition momentTransfer_at (moment normal : list R) (b : R) (i : nat)
    : option R :=
  mi ← moment !! i; ni ← normal !! i; Some (momentTransfer_value mi ni b).

(** The value [NA2LD] leaves at index [i] of its one list, or the
    exception. *)
Definition NA2LD_at (N A alphaDeg : list R) (i : nat) : option R :=
  a ← alphaDeg !! i; Ni ← N !! i; Ai ← A !! i; Some (NA2LD_value Ni Ai a).

(** The list [NA2LD] returns (twice). *)
Definition NA2LD_out (N A alphaDeg : list R) : list R :=
  zip_with (fun na a => NA2LD_value na.1 na.2 a) (zip N A) alphaDeg.

(** ** [datasplit], run by run *)

(** The record [datasplit] builds for the velocity run at index [i] of
    [data] (the body of its loop), or the exception. *)
Definition velocity_run (di : DataFrame) (i : nat) : option Data :=
  x ← q2v (col_q di);
  cl ← force2coeff (col_mul (col_NF di) lbf2N) (col_div (col_q di) psf2pa);
  cd ← force2coeff (col_mul (col_AF di) lbf2N) (col_div (col_q di) psf2pa);
  b ← B !! i;
  pm ← momentTransfer (col_mul (col_PM di) inlbs2Nm)
                      (col_mul (col_NF di) lbf2N) b;
  Some (mkData x (col_mul (col_NF di) lbf2N) (col_mul (col_AF di) lbf2N)
               pm cl cd).

(** The record [datasplit] builds for the angle run ([data[0]]), or the
    exception. *)
Definition angle_run (d0 : DataFrame) : option Data :=
  '(lF, dF) ← NA2LD (col_mul (col_NF d0) lbf2N) (col_mul (col_AF d0) lbf2N)
                    (col_Alpha d0);
  cl ← force2coeff lF (col_div (col_q d0) psf2pa);
  cd ← force2coeff dF (col_div (col_q d0) psf2pa);
  b ← B !! 0%nat;
  pm ← momentTransfer (col_mul (col_PM d0) inlbs2Nm)
                      (col_mul (col_NF d0) lbf2N) b;
  Some (mkData (col_Alpha d0) (col_mul (col_NF d0) lbf2N)
               (col_mul (col_AF d0) lbf2N) pm cl cd).

(** The record of the run at index [i]. *)
Definition run (i : nat) (df : DataFrame) : option Data :=
  match i with
  | O => angle_run df
  | _ => velocity_run df i
  end.

(** [B[i]] for a run index the table covers. *)
Definition B_at (i : nat) : R := default 0 (B !! i).

(** The record of run [i] when nothing raises. *)
Definition record (i : nat) (df : DataFrame) : Data :=
  let nf := col_mul (col_NF df) lbf2N in
  let af := col_mul (col_AF df) lbf2N in
  let pm := col_mul (col_PM df) inlbs2Nm in
  let qpa := col_div (col_q df) psf2pa in
  let pm' := zip_with (fun m n => momentTransfer_value m n (B_at i)) pm nf in
  match i with
  | O =>
      let out := NA2LD_out nf af (col_Alpha df) in
      mkData (col_Alpha df) nf af pm'
             (zip_with force2coeff_value out qpa)
             (zip_with force2coeff_value out qpa)
  | _ =>
      mkData (q2v_value <$> col_q df) nf af pm'
             (zip_with force2coeff_value nf qpa)
             (zip_with force2coeff_value af qpa)
  end.

(** The force [datasplit] normalises into [CL] and into [CD] for run [i]. *)
Definition lift_force (i : nat) (df : DataFrame) : list R :=
  match i with
  | O => NA2LD_out (col_mul (col_NF df) lbf2N) (col_mul (col_AF df) lbf2N)
                   (col_Alpha df)
  | _ => col_mul (col_NF df) lbf2N
  end.

Definition drag_force (i : nat) (df : DataFrame) : list R :=
  match i with
  | O => NA2LD_out (col_mul (col_NF df) lbf2N) (col_mul (col_AF df) lbf2N)
                   (col_Alpha df)
  | _ => col_mul (col_AF df) lbf2N
  end.

(** ** Column lengths *)

(** A column that is read by position is shorter than the column whose
    length drives the loop reading it. *)
Definition short_column (i : nat) (df : DataFrame) : Prop :=
  (length (col_q df) < length (col_NF df))%nat
  \/ (length (col_NF df) < length (col_PM df))%nat
  \/ match i with
     | O => (length (col_AF df) < length (col_NF df))%nat
            \/ (length (col_Alpha df) < length (col_NF df))%nat
     | _ => (length (col_q df) < length (col_AF df))%nat
     end.

#[global] Instance short_column_dec i df : Decision (short_column i df).
Proof. unfold short_column. destruct i; apply _. Defined.

(** The columns a run needs all have [n] entries. *)
Definition equal_columns (i : nat) (df : DataFrame) (n : nat) : Prop :=
  length (col_NF df) = n /\ length (col_AF df) = n
  /\ length (col_PM df) = n /\ length (col_q df) = n
  /\ match i with
     | O => length (col_Alpha df) = n
     | _ => True
     end.

#[global] Instance equal_columns_dec i df n : Decision (equal_columns i df n).
Proof. unfold equal_columns. destruct i; apply _. Defined.

(** ** Samples *)

(** Sample [k] of a record: the entries at index [k] of its six lists. *)
Record Sample : Type := mkSample {
  s_X : R;
  s_NF : R;
  s_AF : R;
  s_PM : R;
  s_CL : option R;
  s_CD : option R
}.

Definition Data_at (d : Data) (k : nat) : option Sample :=
  x ← X d !! k; n ← NF d !! k; a ← AF d !! k; m ← PM d !! k;
  cl ← CL d !! k; cd ← CD d !! k;
  Some (mkSample x n a m cl cd).

(** What run [i] makes of one row of its table: angle [alpha], normal force
    [n], axial force [a], moment [m] and pressure [q], all raw. *)
Definition reduce (i : nat) (alpha n a m q : R) : Sample :=
  let nf := n * lbf2N in
  let af := a * lbf2N in
  let pm := momentTransfer_value (m * inlbs2Nm) nf (B_at i) in
  match i with
  | O =>
      mkSample alpha nf af pm
               (force2coeff_value (NA2LD_value nf af alpha) (q / psf2pa))
               (force2coeff_value (NA2LD_value nf af alpha) (q / psf2pa))
  | _ =>
      mkSample (q2v_value q) nf af pm
               (force2coeff_value nf (q / psf2pa))
               (force2coeff_value af (q / psf2pa))
  end.

(** ** Example tables *)

(** Example tables: an angle sweep and a velocity sweep of two samples
    each. *)
Definition angle_table : DataFrame :=
  mkDataFrame [0; 90] [10; 10] [0; 0] [1; 2] [50; 50].

Definition velocity_table : DataFrame :=
  mkDataFrame [0; 0] [5; 5] [1; 1] [3; 4] [0; 25].

(** A table whose pressure column has one entry more than the others. *)
Definition long_q_table : DataFrame :=
  mkDataFrame [0] [0] [1] [0] [1; 2].

(** A table whose pressure column has one entry less than the others. *)
Definition short_q_table : DataFrame :=
  mkDataFrame [0; 0] [5; 5] [1; 1] [3; 4] [25].

(** * Part 2b: ingestion and the main program *)

(** An entry of the list [read_files] fills: the [0] it is initialised
    with, or a table. *)
Inductive entry : Type :=
| Int0
| Table (t : DataFrame).

(** [read_files].  [pd.read_csv] is outside the repository: it is the
    parameter [read_csv], given the path and the [skiprows] list, and it
    returns the table or raises. *)
Definition read_files (read_csv : string -> list nat -> option DataFrame)
    (files : list string) : option (list entry) :=
  let n := length files in
  let new_files := replicate n Int0 in
  let rows := [0; 1; 2; 3; 4; 5; 6; 8]%nat in
  for_each (fun i new_files =>
              match files !! i with
              | Some f =>
                  match read_csv f rows with
                  | Some t => setitem new_files i (Table t)
                  | None => None
                  end
              | None => None
              end)
           (range 0 n) new_files.

(** The list [files] of the main program, for the folder [path]. *)
Definition files (path : string) : list string :=
  [ (path +:+ "/Flat Plate Angle.csv")%string;
    (path +:+ "/Flat Plate Velocity.csv")%string;
    (path +:+ "/Half Sphere.csv")%string;
    (path +:+ "/Inverted Cup.csv")%string;
    (path +:+ "/Sphere.csv")%string ].

(** [datasplit] subscripts every entry of its argument by column name,
    which raises on an entry that is still the integer [0]. *)
Definition tables (data : list entry) : option (list DataFrame) :=
  mapM (fun e => match e with Table t => Some t | Int0 => None end) data.

(** The main program up to the plots:
    [data = read_files(files)] and
    [flatPlateAng, flatPlateVel, halfSphere, invertedCup, sphere =
     datasplit(data)]; the unpacking raises unless there are exactly five
    records. *)
Definition main_records (read_csv : string -> list nat -> option DataFrame)
    (path : string) : option (slot * slot * slot * slot * slot) :=
  data ← read_files read_csv (files path);
  data ← tables data;
  res ← datasplit data;
  match res with
  | [flatPlateAng; flatPlateVel; halfSphere; invertedCup; sphere] =>
      Some (flatPlateAng, flatPlateVel, halfSphere, invertedCup, sphere)
  | _ => None
  end.

(** * Part 2c: [force2coeff] on binary64 numbers *)

(** The same function on IEEE 754 binary64 numbers, which is what a Python
    [float] is: [==] is [PrimFloat.eqb], [*] and [/] round to nearest. *)
Module Binary64.

Import PrimFloat.

(** [x / y]: ZeroDivisionError when the divisor is zero. *)
Definition py_div (x y : float) : option float :=
  if (y =? 0)%float then None else Some (x / y)%float.

(** The literal [0.01]: the binary64 number nearest to it. *)
Definition S : float := 0x1.47ae147ae147bp-7%float.

Definition force2coeff (force q : list float) : option (list (option float)) :=
  let n := length force in
  let S := S in
  let coefficient := replicate n (Some 0%float) in
  for_each (fun i coefficient =>
              match q !! i with
              | Some qi =>
                  if (qi =? 0)%float then setitem coefficient i None
                  else
                    match force !! i with
                    | Some fi =>
                        match py_div fi (qi * S)%float with
                        | Some c => setitem coefficient i (Some c)
                        | None => None
                        end
                    | None => None
                    end
              | None => None
              end)
           (range 0 n) coefficient.

(** The numbers of the examples: [0.0], [1.0], [50.0] and [5e-324], the
    smallest positive binary64 number. *)
Definition zero : float := 0%float.
Definition one : float := 1%float.
Definition fifty : float := 50%float.
Definition tiny : float := 0x1p-1074%float.

End Binary64.

(** * Part 3: how the program computes *)

(** One step through a [x ← m; k] whose [m] is known. *)
Tactic Notation "bind_step" := cbn [mbind option_bind].
Tactic Notation "bind_step" "in" hyp(H) := cbn [mbind option_bind] in H.

(** ** Loops *)

Lemma for_each_ext {S : Type} (f g : nat -> S -> option S) idx :
  (forall i s, In i idx -> f i s = g i s) ->
  forall s, for_each f idx s = for_each g idx s.
Proof.
  induction idx as [|i idx IH]; intros Hfg s; simpl; [reflexivity|].
  rewrite Hfg by (left; reflexivity).
  destruct (g i s); [|reflexivity].
  apply IH. intros j s' Hj. apply Hfg. right; exact Hj.
Qed.

(** A loop run on an image of the state: [emb] embeds the small state into
    the large one and the bodies commute with it. *)
Lemma for_each_embed {S T : Type} (emb : T -> S)
    (f : nat -> S -> option S) (g : nat -> T -> option T) idx :
  (forall i t, f i (emb t) = emb <$> g i t) ->
  forall t, for_each f idx (emb t) = emb <$> for_each g idx t.
Proof.
  intros Hfg. induction idx as [|i idx IH]; intros t; simpl; [reflexivity|].
  rewrite Hfg. destruct (g i t); simpl; [apply IH | reflexivity].
Qed.

Lemma setitem_Some {V : Type} (l : list V) i v :
  (i < length l)%nat -> setitem l i v = Some (<[i := v]> l).
Proof. intros H. unfold setitem. destruct (decide _); [reflexivity | lia]. Qed.

Lemma setitem_None {V : Type} (l : list V) i v :
  (length l <= i)%nat -> setitem l i v = None.
Proof. intros H. unfold setitem. destruct (decide _); [lia | reflexivity]. Qed.

(** The loops of [q2v], [force2coeff], [momentTransfer] and, once the
    aliasing is resolved, [NA2LD] all store at index [i] a value [g i]
    computed from the inputs alone. *)
Section Filling.

Context {V : Type} (g : nat -> option V).

(** Filling the positions [a .. a+k-1] of a long enough list succeeds when
    every value is defined, and changes exactly those positions. *)
Lemma fill_seq_Some k :
  forall a (l : list V),
    (a + k <= length l)%nat ->
    (forall i, (a <= i < a + k)%nat -> is_Some (g i)) ->
    exists l', for_each (fill g) (seq a k) l = Some l'
      /\ length l' = length l
      /\ forall i, l' !! i = if decide (a <= i < a + k)%nat then g i else l !! i.
Proof.
  induction k as [|k IH]; intros a l Hlen Hg; simpl.
  - exists l. repeat split; [].
    intros i. destruct (decide _); [lia | reflexivity].
  - destruct (Hg a ltac:(lia)) as [v Hv].
    unfold fill at 1. rewrite Hv, setitem_Some by lia.
    destruct (IH (S a) (<[a := v]> l)) as (l' & Hrun & Hl' & Hlook).
    + rewrite length_insert. lia.
    + intros i Hi. apply Hg. lia.
    + exists l'. split; [exact Hrun|]. split.
      * rewrite Hl'. apply length_insert.
      * intros i. rewrite Hlook.
        destruct (decide (S a <= i < S a + k)%nat) as [Hin|Hout].
        -- destruct (decide _); [reflexivity | lia].
        -- destruct (decide (a = i)) as [->|Hne].
           ++ rewrite list_lookup_insert_eq by lia.
              destruct (decide _); [symmetry; exact Hv | lia].
           ++ rewrite list_lookup_insert_ne by exact Hne.
              destruct (decide _); [lia | reflexivity].
Qed.

(** The loop raises as soon as one value is undefined. *)
Lemma fill_seq_None k :
  forall a (l : list V),
    (exists i, (a <= i < a + k)%nat /\ g i = None) ->
    for_each (fill g) (seq a k) l = None.
Proof.
  induction k as [|k IH]; intros a l (i & Hi & Hgi); [lia|].
  simpl. unfold fill at 1.
  destruct (g a) as [v|] eqn:Hga; [|reflexivity].
  destruct (setitem l a v) as [l'|]; [|reflexivity].
  apply IH. exists i. split; [|exact Hgi].
  destruct (decide (i = a)) as [->|]; [congruence | lia].
Qed.

(** What a filling loop that returned has done. *)
Lemma fill_seq_inv k :
  forall a (l l' : list V),
    for_each (fill g) (seq a k) l = Some l' ->
    length l' = length l
    /\ forall i, l' !! i = if decide (a <= i < a + k)%nat then g i else l !! i.
Proof.
  induction k as [|k IH]; intros a l l' Hrun; simpl in Hrun.
  - injection Hrun as <-. split; [reflexivity|].
    intros i. destruct (decide _); [lia | reflexivity].
  - unfold fill at 1 in Hrun.
    destruct (g a) as [v|] eqn:Hv; [|discriminate].
    unfold setitem in Hrun.
    destruct (decide (a < length l)%nat) as [Ha|]; [|discriminate].
    apply IH in Hrun as [Hlen Hlook]. split.
    + rewrite Hlen. apply length_insert.
    + intros i. rewrite Hlook.
      destruct (decide (S a <= i < S a + k)%nat) as [Hin|Hout].
      * destruct (decide _); [reflexivity | lia].
      * destruct (decide (a = i)) as [->|Hne].
        -- rewrite list_lookup_insert_eq by lia.
           destruct (decide _); [symmetry; exact Hv | lia].
        -- rewrite list_lookup_insert_ne by exact Hne.
           destruct (decide _); [lia | reflexivity].
Qed.

(** The whole loop of [q2v], [force2coeff] and [momentTransfer]: a fresh
    list of [n] zeros, every index of [range(0, n)] filled. *)
Lemma fill_range_Some n (z : V) :
  (forall i, (i < n)%nat -> is_Some (g i)) ->
  exists out, for_each (fill g) (range 0 n) (replicate n z) = Some out
    /\ length out = n
    /\ forall i, (i < n)%nat -> out !! i = g i.
Proof.
  intros Hg. unfold range. rewrite Nat.sub_0_r.
  destruct (fill_seq_Some n 0%nat (replicate n z)) as (out & Hrun & Hlen & Hlook).
  - rewrite length_replicate. lia.
  - intros i Hi. apply Hg. lia.
  - exists out. split; [exact Hrun|]. split.
    + rewrite Hlen. apply length_replicate.
    + intros i Hi. rewrite Hlook. destruct (decide _); [reflexivity | lia].
Qed.

Lemma fill_range_None n (z : V) :
  (exists i, (i < n)%nat /\ g i = None) ->
  for_each (fill g) (range 0 n) (replicate n z) = None.
Proof.
  intros (i & Hi & Hgi). unfold range. rewrite Nat.sub_0_r.
  apply fill_seq_None. exists i. split; [lia | exact Hgi].
Qed.

Lemma fill_range_eq n (z : V) (c : list V) :
  length c = n ->
  (forall i, (i < n)%nat -> g i = c !! i) ->
  for_each (fill g) (range 0 n) (replicate n z) = Some c.
Proof.
  intros Hc Hg.
  destruct (fill_range_Some n z) as (out & Hrun & Hlen & Hlook).
  - intros i Hi. rewrite Hg by exact Hi. apply lookup_lt_is_Some. lia.
  - rewrite Hrun. f_equal. apply list_eq. intros i.
    destruct (decide (i < n)%nat) as [Hi|Hi].
    + rewrite Hlook, Hg by exact Hi. reflexivity.
    + rewrite !lookup_ge_None_2 by lia. reflexivity.
Qed.

End Filling.

(** ** The functions in closed form *)

Lemma q2v_radicand_nonneg (qi : R) :
  0 <= (2 * Rabs (qi / psf2pa) * 287 * 296.15) / 100914.
Proof.
  pose proof (Rabs_pos (qi / psf2pa)) as Habs.
  apply Rmult_le_pos; [|lra].
  apply Rmult_le_pos; [|lra].
  apply Rmult_le_pos; [|lra].
  lra.
Qed.

(** The square root of [q2v] is always taken of a number that is not
    negative. *)
Lemma q2v_sqrt_defined (qi : R) :
  math_sqrt ((2 * Rabs (qi / psf2pa) * 287 * 296.15) / 100914)
  = Some (q2v_value qi).
Proof.
  unfold math_sqrt. destruct (Rle_dec _ _) as [|Hneg]; [reflexivity|].
  destruct Hneg. apply q2v_radicand_nonneg.
Qed.

Lemma q2v_eq (q : list R) : q2v q = Some (q2v_value <$> q).
Proof.
  unfold q2v.
  rewrite (for_each_ext _ (fill (fun i => q2v_value <$> q !! i))).
  - apply fill_range_eq.
    + apply length_fmap.
    + intros i _. rewrite list_lookup_fmap. reflexivity.
  - intros i vel _. unfold fill. destruct (q !! i) as [qi|]; [|reflexivity].
    simpl. rewrite q2v_sqrt_defined. reflexivity.
Qed.

Lemma q2v_value_opp (qi : R) : q2v_value (- qi) = q2v_value qi.
Proof.
  unfold q2v_value. f_equal. f_equal. f_equal. f_equal. f_equal.
  unfold Rdiv. rewrite <- Ropp_mult_distr_l. apply Rabs_Ropp.
Qed.

(** Behind the guard [q[i] == 0] the divisor [q[i] * S] is not zero. *)
Lemma py_div_guarded (fi qi : R) :
  qi <> 0 -> py_div fi (qi * 0.01) = Some (fi / (qi * 0.01)).
Proof.
  intros Hnz. unfold py_div.
  destruct (Req_dec_T (qi * 0.01) 0) as [Hz|]; [|reflexivity].
  exfalso. apply Hnz. lra.
Qed.

Lemma force2coeff_fill (force q : list R) :
  force2coeff force q =
  for_each (fill (force2coeff_at force q)) (range 0 (length force))
           (replicate (length force) (Some 0)).
Proof.
  unfold force2coeff. apply for_each_ext.
  intros i c _. unfold fill, force2coeff_at.
  destruct (q !! i) as [qi|]; simpl; [|reflexivity].
  destruct (Req_dec_T qi 0); [reflexivity|].
  destruct (force !! i) as [fi|]; [|reflexivity]. simpl.
  destruct (py_div fi (qi * 0.01)); reflexivity.
Qed.

Lemma force2coeff_Some (force q : list R) :
  (length force <= length q)%nat ->
  force2coeff force q = Some (zip_with force2coeff_value force q).
Proof.
  intros Hlen. rewrite force2coeff_fill. apply fill_range_eq.
  - rewrite length_zip_with. lia.
  - intros i Hi. unfold force2coeff_at.
    rewrite lookup_zip_with.
    destruct (lookup_lt_is_Some_2 force i Hi) as [fi Hfi].
    assert (Hq : (i < length q)%nat) by lia.
    destruct (lookup_lt_is_Some_2 q i Hq) as [qi Hqi].
    rewrite Hfi, Hqi. simpl. unfold force2coeff_value.
    destruct (Req_dec_T qi 0) as [|Hnz]; [reflexivity|].
    rewrite py_div_guarded by exact Hnz. reflexivity.
Qed.

Lemma force2coeff_None (force q : list R) :
  (length q < length force)%nat -> force2coeff force q = None.
Proof.
  intros Hlen. rewrite force2coeff_fill. apply fill_range_None.
  exists (length q). split; [exact Hlen|].
  unfold force2coeff_at. rewrite (lookup_ge_None_2 q (length q)) by lia.
  reflexivity.
Qed.

Lemma momentTransfer_fill (moment normal : list R) (b : R) :
  momentTransfer moment normal b =
  for_each (fill (momentTransfer_at moment normal b)) (range 0 (length moment))
           (replicate (length moment) 0).
Proof.
  unfold momentTransfer. apply for_each_ext.
  intros i c _. unfold fill, momentTransfer_at, momentTransfer_value.
  destruct (moment !! i) as [mi|]; simpl; [|reflexivity].
  destruct (normal !! i); reflexivity.
Qed.

Lemma momentTransfer_Some (moment normal : list R) (b : R) :
  (length moment <= length normal)%nat ->
  momentTransfer moment normal b =
  Some (zip_with (fun mi ni => momentTransfer_value mi ni b) moment normal).
Proof.
  intros Hlen. rewrite momentTransfer_fill. apply fill_range_eq.
  - rewrite length_zip_with. lia.
  - intros i Hi. unfold momentTransfer_at. rewrite lookup_zip_with.
    reflexivity.
Qed.

Lemma momentTransfer_None (moment normal : list R) (b : R) :
  (length normal < length moment)%nat -> momentTransfer moment normal b = None.
Proof.
  intros Hlen. rewrite momentTransfer_fill. apply fill_range_None.
  exists (length normal). split; [exact Hlen|].
  unfold momentTransfer_at.
  destruct (moment !! length normal); simpl; [|reflexivity].
  rewrite (lookup_ge_None_2 normal (length normal)) by lia. reflexivity.
Qed.

(** ** [NA2LD]: three names, one list *)

Lemma heap_get_single (l : list R) (i : nat) :
  heap_get [l] 0%nat i = l !! i.
Proof. reflexivity. Qed.

Lemma heap_set_single (l : list R) (i : nat) (v : R) :
  heap_set [l] 0%nat i v = (fun l' => [l']) <$> setitem l i v.
Proof. unfold heap_set. simpl. destruct (setitem l i v); reflexivity. Qed.

(** One pass of the loop when the three names point to the same cell. *)
Lemma NA2LD_body_aliased (N A alphaDeg : list R) (i : nat) (l : list R) :
  NA2LD_body N A alphaDeg 0%nat 0%nat 0%nat i [l] =
  (fun l' => [l']) <$> fill (NA2LD_at N A alphaDeg) i l.
Proof.
  unfold NA2LD_body, fill, NA2LD_at.
  destruct (alphaDeg !! i) as [a|]; [|reflexivity].
  bind_step.
  rewrite heap_set_single.
  destruct (decide (i < length l)%nat) as [Hi|Hi].
  - rewrite setitem_Some by exact Hi.
    cbn [fmap option_fmap option_map mbind option_bind].
    destruct (N !! i) as [Ni|]; [|reflexivity].
    bind_step.
    rewrite heap_get_single, list_lookup_insert_eq by exact Hi.
    destruct (A !! i) as [Ai|]; [|reflexivity].
    bind_step.
    rewrite heap_set_single, setitem_Some
      by (rewrite ?length_insert; exact Hi).
    cbn [fmap option_fmap option_map mbind option_bind].
    rewrite heap_get_single, list_lookup_insert_eq
      by (rewrite ?length_insert; exact Hi).
    bind_step.
    rewrite heap_set_single, !setitem_Some
      by (rewrite ?length_insert; exact Hi).
    cbn [fmap option_fmap option_map].
    rewrite !list_insert_insert_eq. reflexivity.
  - rewrite setitem_None by lia.
    cbn [fmap option_fmap option_map mbind option_bind].
    destruct (N !! i); [|reflexivity].
    destruct (A !! i); [|reflexivity].
    bind_step. rewrite setitem_None by lia. reflexivity.
Qed.

Lemma NA2LD_fill (N A alphaDeg : list R) :
  NA2LD N A alphaDeg =
  (out ← for_each (fill (NA2LD_at N A alphaDeg)) (range 0 (length N))
                  (replicate (length N) 0);
   Some (out, out)).
Proof.
  unfold NA2LD. simpl.
  rewrite (for_each_embed (fun l => [l]) _ (fill (NA2LD_at N A alphaDeg)))
    by apply NA2LD_body_aliased.
  destruct (for_each _ _ _); reflexivity.
Qed.

Lemma NA2LD_Some (N A alphaDeg : list R) :
  (length N <= length A)%nat -> (length N <= length alphaDeg)%nat ->
  NA2LD N A alphaDeg =
  Some (NA2LD_out N A alphaDeg, NA2LD_out N A alphaDeg).
Proof.
  intros HA Ha. rewrite NA2LD_fill.
  rewrite (fill_range_eq _ _ _ (NA2LD_out N A alphaDeg)); [reflexivity| |].
  - unfold NA2LD_out. rewrite length_zip_with, length_zip. lia.
  - intros i Hi. unfold NA2LD_at, NA2LD_out.
    rewrite !lookup_zip_with.
    destruct (alphaDeg !! i); simpl.
    + destruct (N !! i); simpl; [|reflexivity].
      destruct (A !! i); reflexivity.
    + destruct (N !! i); simpl; [|reflexivity].
      destruct (A !! i); reflexivity.
Qed.

Lemma NA2LD_None (N A alphaDeg : list R) :
  (length A < length N)%nat \/ (length alphaDeg < length N)%nat ->
  NA2LD N A alphaDeg = None.
Proof.
  intros Hlen. rewrite NA2LD_fill.
  rewrite fill_range_None; [reflexivity|].
  unfold NA2LD_at.
  destruct (decide (length alphaDeg < length N)%nat) as [Ha|Ha].
  - exists (length alphaDeg). split; [exact Ha|].
    rewrite (lookup_ge_None_2 alphaDeg (length alphaDeg)) by lia. reflexivity.
  - exists (length A). split; [lia|].
    destruct (alphaDeg !! length A); simpl; [|reflexivity].
    destruct (N !! length A); simpl; [|reflexivity].
    rewrite (lookup_ge_None_2 A (length A)) by lia. reflexivity.
Qed.

Lemma length_NA2LD_out (N A alphaDeg : list R) :
  length (NA2LD_out N A alphaDeg)
  = ((length N `min` length A) `min` length alphaDeg)%nat.
Proof. unfold NA2LD_out. rewrite length_zip_with, length_zip. reflexivity. Qed.

Lemma NA2LD_value_zero_normal_zero_angle (a : R) : NA2LD_value 0 a 0 = a.
Proof.
  unfold NA2LD_value, radians.
  replace (0 * (PI / 180)) with 0 by lra.
  rewrite cos_0, sin_0.
  replace (0 * 1 - a * 0) with 0 by lra.
  rewrite sin_0, cos_0. lra.
Qed.

Lemma NA2LD_zero_normal_zero_angle (A : list R) :
  NA2LD (replicate (length A) 0) A (replicate (length A) 0) = Some (A, A).
Proof.
  rewrite NA2LD_Some by (rewrite !length_replicate; lia).
  assert (Hout : NA2LD_out (replicate (length A) 0) A (replicate (length A) 0)
                 = A).
  { apply list_eq. intros i. unfold NA2LD_out.
    rewrite !lookup_zip_with.
    destruct (decide (i < length A)%nat) as [Hi|Hi].
    - rewrite !lookup_replicate_2 by exact Hi.
      destruct (lookup_lt_is_Some_2 A i Hi) as [a Ha]. rewrite Ha. simpl.
      rewrite NA2LD_value_zero_normal_zero_angle. reflexivity.
    - rewrite (lookup_ge_None_2 A i) by lia.
      destruct (replicate (length A) 0 !! i); reflexivity. }
  rewrite Hout. reflexivity.
Qed.

(** ** [datasplit], run by run *)

Lemma transfer_PM_insert (lst : list slot) (i : nat) (d : Data) :
  (i < length lst)%nat ->
  transfer_PM (<[i := Obj d]> lst) i =
  (b ← B !! i; pm ← momentTransfer (PM d) (NF d) b;
   Some (<[i := Obj (set_PM d pm)]> lst)).
Proof.
  intros Hi. unfold transfer_PM.
  rewrite list_lookup_insert_eq by exact Hi. bind_step.
  destruct (B !! i) as [b|]; [|reflexivity]. bind_step.
  destruct (momentTransfer _ _ b); [|reflexivity]. bind_step.
  rewrite list_insert_insert_eq. reflexivity.
Qed.

(** The body of the loop of [datasplit] stores the record of the run. *)
Lemma datasplit_body (data : list DataFrame) (i : nat) (lst : list slot) :
  (di ← data !! i;
   x ← q2v (col_q di);
   cl ← force2coeff (col_mul (col_NF di) lbf2N) (col_div (col_q di) psf2pa);
   cd ← force2coeff (col_mul (col_AF di) lbf2N) (col_div (col_q di) psf2pa);
   lst ← setitem lst i
          (Obj (mkData x (col_mul (col_NF di) lbf2N)
                       (col_mul (col_AF di) lbf2N)
                       (col_mul (col_PM di) inlbs2Nm) cl cd));
   transfer_PM lst i) =
  fill (fun i => di ← data !! i; Obj <$> velocity_run di i) i lst.
Proof.
  unfold fill, velocity_run.
  destruct (data !! i) as [di|]; [|reflexivity]. bind_step.
  destruct (q2v (col_q di)) as [x|]; [|reflexivity]. bind_step.
  destruct (force2coeff (col_mul (col_NF di) lbf2N) _) as [cl|];
    [|reflexivity]. bind_step.
  destruct (force2coeff (col_mul (col_AF di) lbf2N) _) as [cd|];
    [|reflexivity]. bind_step.
  destruct (decide (i < length lst)%nat) as [Hi|Hi].
  - rewrite setitem_Some by exact Hi. bind_step.
    rewrite transfer_PM_insert by exact Hi. cbn [PM NF].
    destruct (B !! i) as [b|]; [|reflexivity]. bind_step.
    destruct (momentTransfer _ _ b) as [pm|]; [|reflexivity].
    cbn [mbind option_bind fmap option_fmap option_map].
    rewrite setitem_Some by exact Hi. reflexivity.
  - rewrite setitem_None by lia. bind_step.
    destruct (B !! i) as [b|]; [|reflexivity]. bind_step.
    destruct (momentTransfer _ _ b) as [pm|]; [|reflexivity].
    cbn [mbind option_bind fmap option_fmap option_map].
    rewrite setitem_None by lia. reflexivity.
Qed.

(** [datasplit] is the angle run stored at index [0] followed by the loop
    over the velocity runs. *)
Lemma datasplit_runs (data : list DataFrame) :
  datasplit data =
  (d0 ← data !! 0%nat;
   r0 ← angle_run d0;
   for_each (fill (fun i => di ← data !! i; Obj <$> velocity_run di i))
            (range 1 (length data))
            (<[0%nat := Obj r0]> (replicate (length data) Zero))).
Proof.
  unfold datasplit, angle_run.
  destruct data as [|d0 data]; [reflexivity|].
  cbn [lookup list_lookup mbind option_bind].
  destruct (NA2LD _ _ _) as [[lF dF]|]; [|reflexivity].
  bind_step.
  destruct (force2coeff lF _) as [cl|]; [|reflexivity]. bind_step.
  destruct (force2coeff dF _) as [cd|]; [|reflexivity]. bind_step.
  rewrite setitem_Some by (rewrite length_replicate; simpl; lia).
  bind_step.
  rewrite transfer_PM_insert by (rewrite length_replicate; simpl; lia).
  cbn [PM NF].
  destruct (B !! 0%nat) as [b|]; [|reflexivity]. bind_step.
  destruct (momentTransfer _ _ b) as [pm|]; [|reflexivity].
  bind_step.
  apply for_each_ext. intros i lst _. apply datasplit_body.
Qed.

(** [datasplit] returns when every run does, with the record of run [i] at
    index [i]. *)
Lemma datasplit_Some (data : list DataFrame) :
  data <> [] ->
  (forall i df, data !! i = Some df -> is_Some (run i df)) ->
  exists res, datasplit data = Some res
    /\ length res = length data
    /\ forall i df, data !! i = Some df -> res !! i = Obj <$> run i df.
Proof.
  intros Hne Hruns. rewrite datasplit_runs.
  destruct data as [|d0 data]; [congruence|].
  cbn [lookup list_lookup mbind option_bind].
  destruct (Hruns 0%nat d0 eq_refl) as [r0 Hr0]. simpl in Hr0.
  rewrite Hr0. bind_step.
  unfold range. cbn [length]. rewrite Nat.sub_succ, Nat.sub_0_r.
  destruct (fill_seq_Some
              (fun i => di ← (d0 :: data) !! i; Obj <$> velocity_run di i)
              (length data) 1
              (<[0%nat := Obj r0]> (replicate (S (length data)) Zero)))
    as (res & Hrun & Hlen & Hlook).
  - rewrite length_insert, length_replicate. lia.
  - intros i Hi.
    assert (Hlt : (i < length (d0 :: data))%nat) by (simpl; lia).
    destruct (lookup_lt_is_Some_2 _ _ Hlt) as [di Hdi].
    rewrite Hdi. bind_step.
    destruct (Hruns i di Hdi) as [d Hd].
    destruct i as [|i]; [lia|]. simpl in Hd. rewrite Hd. eexists; reflexivity.
  - exists res. split; [exact Hrun|]. split.
    + rewrite Hlen, length_insert, length_replicate. reflexivity.
    + intros i df Hdf. rewrite Hlook.
      destruct i as [|i].
      * destruct (decide _); [lia|]. simpl in Hdf. injection Hdf as <-.
        simpl. rewrite Hr0. reflexivity.
      * apply lookup_lt_Some in Hdf as Hlt. simpl in Hlt.
        destruct (decide _); [|lia]. rewrite Hdf. reflexivity.
Qed.

(** [datasplit] raises when one run does. *)
Lemma datasplit_None (data : list DataFrame) :
  (exists i df, data !! i = Some df /\ run i df = None) ->
  datasplit data = None.
Proof.
  intros (i & df & Hdf & Hrun). rewrite datasplit_runs.
  destruct data as [|d0 data]; [reflexivity|].
  cbn [lookup list_lookup mbind option_bind].
  destruct (angle_run d0) as [r0|] eqn:Hr0; [|reflexivity].
  bind_step.
  unfold range. cbn [length]. rewrite Nat.sub_succ, Nat.sub_0_r.
  apply fill_seq_None. exists i.
  destruct i as [|i].
  - simpl in Hdf, Hrun. congruence.
  - apply lookup_lt_Some in Hdf as Hlt. simpl in Hlt. split; [lia|].
    rewrite Hdf. bind_step. simpl in Hrun. rewrite Hrun.
    reflexivity.
Qed.

(** What [datasplit] has done when it returned. *)
Lemma datasplit_inv (data : list DataFrame) (res : list slot) :
  datasplit data = Some res ->
  data <> []
  /\ length res = length data
  /\ forall i df, data !! i = Some df ->
       exists d, run i df = Some d /\ res !! i = Some (Obj d).
Proof.
  rewrite datasplit_runs. intros Hrun.
  destruct data as [|d0 data]; [discriminate|].
  cbn [lookup list_lookup mbind option_bind] in Hrun.
  destruct (angle_run d0) as [r0|] eqn:Hr0; [|discriminate].
  bind_step in Hrun.
  unfold range in Hrun. cbn [length] in Hrun.
  rewrite Nat.sub_succ, Nat.sub_0_r in Hrun.
  apply fill_seq_inv in Hrun as [Hlen Hlook].
  split; [discriminate|]. split.
  - rewrite Hlen, length_insert, length_replicate. reflexivity.
  - intros i df Hdf. specialize (Hlook i).
    destruct i as [|i].
    + destruct (decide _) in Hlook; [lia|]. simpl in Hdf. injection Hdf as <-.
      exists r0. split; [exact Hr0 | exact Hlook].
    + apply lookup_lt_Some in Hdf as Hlt. simpl in Hlt.
      destruct (decide _) in Hlook; [|lia].
      rewrite Hdf in Hlook. bind_step in Hlook.
      change (run (S i) df) with (velocity_run df (S i)).
      destruct (velocity_run df (S i)) as [d|].
      * exists d. split; [reflexivity | exact Hlook].
      * simpl in Hlook.
        assert (Hin : (S i < length res)%nat)
          by (rewrite Hlen, length_insert, length_replicate; lia).
        apply lookup_lt_is_Some_2 in Hin as [s Hs]. congruence.
Qed.

(** ** The records in closed form *)

Lemma length_col_mul (c : list R) (k : R) : length (col_mul c k) = length c.
Proof. apply length_fmap. Qed.

Lemma length_col_div (c : list R) (k : R) : length (col_div c k) = length c.
Proof. apply length_fmap. Qed.

Lemma B_lookup (i : nat) : (i < 5)%nat -> B !! i = Some (B_at i).
Proof.
  intros Hi. unfold B_at.
  do 5 (destruct i as [|i]; [reflexivity|]). lia.
Qed.

Lemma B_lookup_None (i : nat) : (5 <= i)%nat -> B !! i = None.
Proof. intros Hi. apply lookup_ge_None_2. simpl. exact Hi. Qed.

Lemma run_Some (i : nat) (df : DataFrame) :
  (i < 5)%nat -> ~ short_column i df -> run i df = Some (record i df).
Proof.
  intros Hi Hshort. unfold short_column in Hshort.
  destruct i as [|i]; simpl.
  - unfold angle_run.
    rewrite NA2LD_Some by (rewrite !length_col_mul; lia).
    bind_step.
    rewrite force2coeff_Some
      by (rewrite length_NA2LD_out, !length_col_mul, length_col_div; lia).
    bind_step.
    rewrite (B_lookup 0) by lia. bind_step.
    rewrite momentTransfer_Some by (rewrite !length_col_mul; lia).
    reflexivity.
  - unfold velocity_run. rewrite q2v_eq. bind_step.
    rewrite !force2coeff_Some by (rewrite length_col_mul, length_col_div; lia).
    bind_step.
    rewrite (B_lookup (S i)) by lia. bind_step.
    rewrite momentTransfer_Some by (rewrite !length_col_mul; lia).
    reflexivity.
Qed.

Lemma run_None (i : nat) (df : DataFrame) :
  short_column i df \/ (5 <= i)%nat -> run i df = None.
Proof.
  intros Hbad.
  destruct (decide (short_column i df)) as [Hshort|Hok].
  - clear Hbad. unfold short_column in Hshort. destruct i as [|i]; simpl.
    + unfold angle_run.
      destruct (decide (length (col_AF df) < length (col_NF df)
                        \/ length (col_Alpha df) < length (col_NF df))%nat)
        as [HN|HN].
      { rewrite NA2LD_None by (rewrite !length_col_mul; exact HN).
        reflexivity. }
      rewrite NA2LD_Some by (rewrite !length_col_mul; lia).
      bind_step.
      destruct (decide (length (col_q df) < length (col_NF df))%nat) as [Hq|Hq].
      { rewrite force2coeff_None; [reflexivity|].
        rewrite length_NA2LD_out, !length_col_mul, length_col_div. lia. }
      rewrite force2coeff_Some
        by (rewrite length_NA2LD_out, !length_col_mul, length_col_div; lia).
      bind_step.
      rewrite (B_lookup 0) by lia. bind_step.
      rewrite momentTransfer_None by (rewrite !length_col_mul; lia).
      reflexivity.
    + unfold velocity_run. rewrite q2v_eq. bind_step.
      destruct (decide (length (col_q df) < length (col_NF df))%nat) as [Hq|Hq].
      { rewrite (force2coeff_None (col_mul (col_NF df) lbf2N))
          by (rewrite length_col_mul, length_col_div; exact Hq).
        reflexivity. }
      rewrite (force2coeff_Some (col_mul (col_NF df) lbf2N))
        by (rewrite length_col_mul, length_col_div; lia).
      bind_step.
      destruct (decide (length (col_q df) < length (col_AF df))%nat) as [Ha|Ha].
      { rewrite force2coeff_None
          by (rewrite length_col_mul, length_col_div; exact Ha).
        reflexivity. }
      rewrite force2coeff_Some by (rewrite length_col_mul, length_col_div; lia).
      bind_step.
      destruct (B !! S i) as [b|]; [|reflexivity]. bind_step.
      rewrite momentTransfer_None by (rewrite !length_col_mul; lia).
      reflexivity.
  - destruct Hbad as [Hshort|Hi]; [contradiction|].
    destruct i as [|i]; [lia|]. simpl. unfold velocity_run.
    rewrite q2v_eq. bind_step.
    destruct (force2coeff (col_mul (col_NF df) lbf2N) _); [|reflexivity].
    bind_step.
    destruct (force2coeff (col_mul (col_AF df) lbf2N) _); [|reflexivity].
    bind_step.
    rewrite B_lookup_None by lia. reflexivity.
Qed.

Lemma run_inv (i : nat) (df : DataFrame) (d : Data) :
  run i df = Some d ->
  (i < 5)%nat /\ ~ short_column i df /\ d = record i df.
Proof.
  intros Hrun.
  destruct (decide (short_column i df \/ (5 <= i)%nat)) as [Hbad|Hok].
  - rewrite run_None in Hrun by exact Hbad. discriminate.
  - assert (Hi : (i < 5)%nat) by lia.
    assert (Hs : ~ short_column i df) by tauto.
    rewrite run_Some in Hrun by assumption.
    injection Hrun as <-. auto.
Qed.

(** [datasplit] in closed form. *)
Lemma datasplit_eq (data : list DataFrame) :
  data <> [] ->
  (length data <= 5)%nat ->
  (forall i df, data !! i = Some df -> ~ short_column i df) ->
  datasplit data = Some (imap (fun i df => Obj (record i df)) data).
Proof.
  intros Hne Hlen Hcols.
  assert (Hruns : forall i df, data !! i = Some df ->
                    run i df = Some (record i df)).
  { intros i df Hdf. apply run_Some; [|eauto].
    apply lookup_lt_Some in Hdf. lia. }
  destruct (datasplit_Some data Hne) as (res & Hres & Hl & Hlook).
  - intros i df Hdf. rewrite (Hruns i df Hdf). eexists; reflexivity.
  - rewrite Hres. f_equal. apply list_eq. intros i.
    rewrite list_lookup_imap.
    destruct (data !! i) as [df|] eqn:Hdf.
    + rewrite (Hlook i df Hdf), (Hruns i df Hdf). reflexivity.
    + apply lookup_ge_None in Hdf. apply lookup_ge_None. lia.
Qed.

(** When [datasplit] returned, every run had its columns long enough and
    its record is the closed form. *)
Lemma datasplit_record (data : list DataFrame) (res : list slot) :
  datasplit data = Some res ->
  forall i df, data !! i = Some df ->
    (i < 5)%nat /\ ~ short_column i df
    /\ res !! i = Some (Obj (record i df)).
Proof.
  intros Hres i df Hdf.
  destruct (datasplit_inv data res Hres) as (_ & _ & Hlook).
  destruct (Hlook i df Hdf) as (d & Hrun & Hd).
  apply run_inv in Hrun as (Hi & Hs & ->). auto.
Qed.

Lemma equal_columns_not_short (i : nat) (df : DataFrame) (n : nat) :
  equal_columns i df n -> ~ short_column i df.
Proof.
  unfold equal_columns, short_column.
  destruct i; intros (? & ? & ? & ? & ?); lia.
Qed.

Lemma record_lengths (i : nat) (df : DataFrame) (n : nat) :
  equal_columns i df n ->
  length (X (record i df)) = n /\ length (NF (record i df)) = n
  /\ length (AF (record i df)) = n /\ length (PM (record i df)) = n
  /\ length (CL (record i df)) = n /\ length (CD (record i df)) = n.
Proof.
  unfold equal_columns. intros (Hn & Ha & Hm & Hq & Hal).
  destruct i as [|i]; simpl;
    rewrite ?length_zip_with, ?length_NA2LD_out, ?length_fmap,
      ?length_col_mul, ?length_col_div;
    repeat split; lia.
Qed.

Lemma record_sample (i : nat) (df : DataFrame) (k : nat) (alpha n a m q : R) :
  (i = 0%nat -> col_Alpha df !! k = Some alpha) ->
  col_NF df !! k = Some n -> col_AF df !! k = Some a ->
  col_PM df !! k = Some m -> col_q df !! k = Some q ->
  Data_at (record i df) k = Some (reduce i alpha n a m q).
Proof.
  intros Hal Hn Ha Hm Hq. unfold Data_at, reduce.
  destruct i as [|i]; simpl; unfold NA2LD_out, col_mul, col_div;
    rewrite ?lookup_zip_with, ?list_lookup_fmap, ?Hn, ?Ha, ?Hm, ?Hq;
    simpl.
  - rewrite (Hal eq_refl). reflexivity.
  - reflexivity.
Qed.

Lemma example_tables_ok (i : nat) (df : DataFrame) :
  [angle_table; velocity_table] !! i = Some df -> ~ short_column i df.
Proof.
  destruct i as [|[|i]]; simpl; intros H; [| |discriminate];
    injection H as <-; unfold short_column; simpl; lia.
Qed.

Lemma example_tables_split :
  datasplit [angle_table; velocity_table]
  = Some [Obj (record 0 angle_table); Obj (record 1 velocity_table)].
Proof.
  rewrite datasplit_eq; [reflexivity|discriminate|simpl; lia|].
  apply example_tables_ok.
Qed.

(** * Part 4: the statements of the specification *)

(** ** [NA2LD]: the rotation to lift and drag (C1, C2, C10) *)

(** C1 (the code departs from the statement).  The statement: for every
    index, lift is [N*cos(a) - A*sin(a)] and drag is [N*sin(a) + A*cos(a)],
    [a] the angle in radians.  In the code [liftForce], [dragForce] and
    [alphaRad] name one list, so the assignment to [dragForce[i]] reads the
    lift value as the angle and overwrites the lift.  With normal force 0,
    axial force 1 and angle 0 degrees the returned lift is 1, while the
    formula gives 0. *)
Theorem NA2LD_lift_overwritten_by_drag :
  NA2LD [0] [1] [0] = Some ([1], [1])
  /\ 0 * cos (radians 0) - 1 * sin (radians 0) = 0
  /\ 0 * sin (radians 0) + 1 * cos (radians 0) = 1.
Proof.
  split; [exact (NA2LD_zero_normal_zero_angle [1])|].
  unfold radians. replace (0 * (PI / 180)) with 0 by lra.
  rewrite cos_0, sin_0. lra.
Qed.

(** C2 (the code departs from the statement).  The statement: at an
    all-zero angle of attack the rotation returns lift = normal and
    drag = axial.  For normal = [0; 0] and axial = [1; 2] the code returns
    [1; 2] for both, so the lift is not the normal force. *)
Theorem NA2LD_zero_angle_not_identity :
  NA2LD [0; 0] [1; 2] [0; 0] = Some ([1; 2], [1; 2])
  /\ [1; 2] <> [0; 0].
Proof.
  split; [exact (NA2LD_zero_normal_zero_angle [1; 2])|].
  intros H. injection H as H _. lra.
Qed.

(** C10.  The two lists [NA2LD] returns are one and the same list: for
    inputs of equal length it returns a pair of equal components, and it
    never returns a pair of different ones; consequently the record of the
    angle run that [datasplit] builds has [CL] equal to [CD]. *)
Theorem NA2LD_returns_one_list :
  (forall N A alphaDeg : list R,
      length A = length N -> length alphaDeg = length N ->
      exists out, NA2LD N A alphaDeg = Some (out, out)
                  /\ length out = length N)
  /\ (forall (N A alphaDeg lift drag : list R),
         NA2LD N A alphaDeg = Some (lift, drag) -> lift = drag)
  /\ (forall (data : list DataFrame) (res : list slot) (d : Data),
         datasplit data = Some res -> res !! 0%nat = Some (Obj d) ->
         CL d = CD d).
Proof.
  split; [|split].
  - intros N A alphaDeg HA Ha.
    exists (NA2LD_out N A alphaDeg). split.
    + apply NA2LD_Some; lia.
    + rewrite length_NA2LD_out. lia.
  - intros N A alphaDeg lift drag. rewrite NA2LD_fill.
    destruct (for_each _ _ _) as [out|]; simpl; [|discriminate].
    intros H. injection H as <- <-. reflexivity.
  - intros data res d Hres Hd.
    destruct (datasplit_inv data res Hres) as (Hne & _ & _).
    destruct data as [|d0 data]; [congruence|].
    destruct (datasplit_record _ _ Hres 0%nat d0 eq_refl) as (_ & _ & Hrec).
    rewrite Hrec in Hd. injection Hd as <-. reflexivity.
Qed.

Lemma NA2LD_returns_one_list_witness :
  exists out, NA2LD [1; 2] [3; 4] [5; 6] = Some (out, out)
              /\ length out = 2%nat.
Proof.
  exact (proj1 NA2LD_returns_one_list [1; 2] [3; 4] [5; 6] eq_refl eq_refl).
Defined.

(** ** [momentTransfer] (C3, C9) *)

(** C3, as stated, fails.  The statement takes [D] to be the article's
    diameter (74.82 mm for the flat plate, with [b] = 98.42 mm); for moment
    0 and normal force 1 that would give -0.005229, and the code returns
    -0.001449. *)
Lemma momentTransfer_not_article_diameter :
  diameters !! 0%nat = Some 74.82
  /\ B !! 0%nat = Some 98.42
  /\ momentTransfer [0] [1] 98.42 = Some [- 0.001449]
  /\ 0 - (0.028829 + 74.82 / 1000 - 98.42 / 1000) * 1 <> - 0.001449.
Proof.
  split; [reflexivity|]. split; [reflexivity|]. split.
  - rewrite momentTransfer_Some by (simpl; lia). simpl.
    unfold momentTransfer_value. do 2 f_equal. lra.
  - lra.
Qed.

(** C3, amended.  For every index [i] the transfer returns
    [moment[i] - (A + D - b/1000) * normal[i]] with [A] = 0.028829 m and
    [D] = 0.07104 m, the same for all articles; in [datasplit] the [b] of
    run [i] is [B[i]] and the transfer is applied to the moment and normal
    force columns in SI units. *)
Theorem momentTransfer_formula :
  (forall (moment normal : list R) (b : R),
      (length moment <= length normal)%nat ->
      exists res, momentTransfer moment normal b = Some res
        /\ length res = length moment
        /\ forall i mi ni, moment !! i = Some mi -> normal !! i = Some ni ->
             res !! i = Some (mi - (0.028829 + 0.07104 - b / 1000) * ni))
  /\ (forall (data : list DataFrame) (res : list slot) i df,
         datasplit data = Some res -> data !! i = Some df ->
         exists d b, res !! i = Some (Obj d)
           /\ B !! i = Some b
           /\ momentTransfer (col_mul (col_PM df) inlbs2Nm)
                             (col_mul (col_NF df) lbf2N) b = Some (PM d)).
Proof.
  split.
  - intros moment normal b Hlen.
    exists (zip_with (fun mi ni => momentTransfer_value mi ni b) moment normal).
    split; [apply momentTransfer_Some; exact Hlen|].
    split; [rewrite length_zip_with; lia|].
    intros i mi ni Hmi Hni. rewrite lookup_zip_with, Hmi, Hni. simpl.
    f_equal. unfold momentTransfer_value. lra.
  - intros data res i df Hres Hdf.
    destruct (datasplit_record data res Hres i df Hdf) as (Hi & Hs & Hrec).
    exists (record i df), (B_at i).
    split; [exact Hrec|]. split; [apply B_lookup; exact Hi|].
    unfold short_column in Hs.
    rewrite momentTransfer_Some by (rewrite !length_col_mul; lia).
    destruct i; reflexivity.
Qed.

Lemma momentTransfer_formula_witness :
  exists res, momentTransfer [1; 2] [4; 5] 98.42 = Some res
    /\ length res = length [1; 2]
    /\ forall i mi ni, [1; 2] !! i = Some mi -> [4; 5] !! i = Some ni ->
         res !! i = Some (mi - (0.028829 + 0.07104 - 98.42 / 1000) * ni).
Proof.
  apply (proj1 momentTransfer_formula [1; 2] [4; 5] 98.42).
  simpl. lia.
Defined.

(** C9.  For a fixed moment list [m] and offset [b] the transfer is linear
    in the normal force: with [n] at least as long as [m], the three
    transfers of [k*n], of the zero list and of [n] all return, each with
    one entry per entry of [m], and at every index
    [T(k*n) - T(0) = k * (T(n) - T(0))]. *)
Theorem momentTransfer_linear_in_normal (m n : list R) (b k : R) :
  (length m <= length n)%nat ->
  exists tk t0 t1,
    momentTransfer m ((fun x => k * x) <$> n) b = Some tk
    /\ momentTransfer m ((fun _ => 0) <$> n) b = Some t0
    /\ momentTransfer m n b = Some t1
    /\ length tk = length m /\ length t0 = length m /\ length t1 = length m
    /\ forall i, (i < length m)%nat ->
         exists a z c, tk !! i = Some a /\ t0 !! i = Some z /\ t1 !! i = Some c
                       /\ a - z = k * (c - z).
Proof.
  intros Hlen.
  eexists _, _, _.
  split; [apply momentTransfer_Some; rewrite length_fmap; exact Hlen|].
  split; [apply momentTransfer_Some; rewrite length_fmap; exact Hlen|].
  split; [apply momentTransfer_Some; exact Hlen|].
  rewrite !length_zip_with, !length_fmap.
  split; [lia|]. split; [lia|]. split; [lia|].
  intros i Hi.
  destruct (lookup_lt_is_Some_2 m i Hi) as [mi Hmi].
  assert (Hin : (i < length n)%nat) by lia.
  destruct (lookup_lt_is_Some_2 n i Hin) as [ni Hni].
  rewrite !lookup_zip_with, !list_lookup_fmap, Hmi, Hni. simpl.
  eexists _, _, _. repeat (split; [reflexivity|]).
  unfold momentTransfer_value. lra.
Qed.

Lemma momentTransfer_linear_in_normal_witness :
  exists tk t0 t1,
    momentTransfer [1; 2] ((fun x => 3 * x) <$> [4; 5]) 98.42 = Some tk
    /\ momentTransfer [1; 2] ((fun _ => 0) <$> [4; 5]) 98.42 = Some t0
    /\ momentTransfer [1; 2] [4; 5] 98.42 = Some t1
    /\ length tk = length [1; 2] /\ length t0 = length [1; 2]
    /\ length t1 = length [1; 2]
    /\ forall i, (i < length [1; 2])%nat ->
         exists a z c, tk !! i = Some a /\ t0 !! i = Some z /\ t1 !! i = Some c
                       /\ a - z = 3 * (c - z).
Proof.
  apply (momentTransfer_linear_in_normal [1; 2] [4; 5] 98.42 3).
  simpl. lia.
Defined.

(** ** The pressure conversion (C4) *)

(** C4, as stated, fails.  The statement has the raw pressure multiplied
    by 0.020885.  For a raw reading of 1 the code works with 1 / 0.020885,
    both in the column handed to [force2coeff] and under the square root of
    [q2v]. *)
Lemma pressure_conversion_not_multiplication :
  col_div [1] psf2pa = [1 / 0.020885]
  /\ 1 / 0.020885 <> 1 * 0.020885
  /\ q2v [1]
     = Some [sqrt ((2 * Rabs (1 / 0.020885) * 287 * 296.15) / 100914)]
  /\ sqrt ((2 * Rabs (1 / 0.020885) * 287 * 296.15) / 100914)
     <> sqrt ((2 * Rabs (1 * 0.020885) * 287 * 296.15) / 100914).
Proof.
  split; [reflexivity|]. split; [lra|]. split; [apply q2v_eq|].
  intros H. apply sqrt_inj in H.
  - rewrite !Rabs_pos_eq in H by lra. lra.
  - apply (q2v_radicand_nonneg 1).
  - apply Rmult_le_pos; [|lra]. apply Rmult_le_pos; [|lra].
    apply Rmult_le_pos; [|lra]. pose proof (Rabs_pos (1 * 0.020885)). lra.
Qed.

(** C4, amended.  The raw pressure is divided by 0.020885 (a divisor that
    is not 0, so there is no error case) wherever the pipeline converts it:
    under the square root of [q2v], and in the column [datasplit] hands to
    [force2coeff] for [CL] and for [CD] of every run. *)
Theorem pressure_conversion_is_division :
  psf2pa = 0.020885 /\ psf2pa <> 0
  /\ (forall q : list R,
        exists vel, q2v q = Some vel
          /\ forall i qi, q !! i = Some qi ->
               vel !! i
               = Some (sqrt ((2 * Rabs (qi / 0.020885) * 287 * 296.15)
                             / 100914)))
  /\ (forall (data : list DataFrame) (res : list slot) i df,
         datasplit data = Some res -> data !! i = Some df ->
         exists d, res !! i = Some (Obj d)
           /\ force2coeff (lift_force i df)
                          ((fun x => x / 0.020885) <$> col_q df) = Some (CL d)
           /\ force2coeff (drag_force i df)
                          ((fun x => x / 0.020885) <$> col_q df) = Some (CD d)
           /\ ((0 < i)%nat -> q2v (col_q df) = Some (X d))).
Proof.
  split; [reflexivity|]. split; [unfold psf2pa; lra|]. split.
  - intros q. exists (q2v_value <$> q). split; [apply q2v_eq|].
    intros i qi Hqi. rewrite list_lookup_fmap, Hqi. reflexivity.
  - intros data res i df Hres Hdf.
    destruct (datasplit_record data res Hres i df Hdf) as (Hi & Hs & Hrec).
    exists (record i df). split; [exact Hrec|].
    change (fun x : R => x / 0.020885) with (fun x : R => x / psf2pa).
    fold (col_div (col_q df) psf2pa).
    unfold short_column in Hs.
    destruct i as [|i]; simpl.
    + rewrite force2coeff_Some
        by (rewrite length_NA2LD_out, !length_col_mul, length_col_div; lia).
      split; [reflexivity|]. split; [reflexivity|]. lia.
    + rewrite !force2coeff_Some
        by (rewrite length_col_mul, length_col_div; lia).
      split; [reflexivity|]. split; [reflexivity|].
      intros _. apply q2v_eq.
Qed.

Lemma pressure_conversion_is_division_witness :
  exists d, [Obj (record 0 angle_table); Obj (record 1 velocity_table)]
              !! 1%nat = Some (Obj d)
    /\ force2coeff (lift_force 1 velocity_table)
                   ((fun x => x / 0.020885) <$> col_q velocity_table)
       = Some (CL d)
    /\ force2coeff (drag_force 1 velocity_table)
                   ((fun x => x / 0.020885) <$> col_q velocity_table)
       = Some (CD d)
    /\ ((0 < 1)%nat -> q2v (col_q velocity_table) = Some (X d)).
Proof.
  exact (proj2 (proj2 (proj2 pressure_conversion_is_division))
           [angle_table; velocity_table] _ 1%nat velocity_table
           example_tables_split eq_refl).
Defined.

(** ** [force2coeff]: the zero-pressure guard (C5) *)

(** Over the real numbers the guard is enough: for force and pressure
    lists of equal length [force2coeff] returns a list of the same length;
    its entry at [i] is the missing marker exactly when [q[i]] is 0, and
    otherwise it is [force[i] / (q[i] * 0.01)], a quotient whose divisor is
    not 0. *)
Lemma force2coeff_guard_over_reals (force q : list R) :
  length force = length q ->
  exists c, force2coeff force q = Some c
    /\ length c = length force
    /\ forall i fi qi, force !! i = Some fi -> q !! i = Some qi ->
         (c !! i = Some None <-> qi = 0)
         /\ (qi <> 0 ->
             qi * 0.01 <> 0 /\ c !! i = Some (Some (fi / (qi * 0.01)))).
Proof.
  intros Hlen. exists (zip_with force2coeff_value force q).
  split; [apply force2coeff_Some; lia|].
  split; [rewrite length_zip_with; lia|].
  intros i fi qi Hfi Hqi. rewrite lookup_zip_with, Hfi, Hqi. simpl.
  unfold force2coeff_value.
  destruct (Req_dec_T qi 0) as [Hz|Hnz].
  - split; [tauto | contradiction].
  - split.
    + split; [discriminate | contradiction].
    + intros _. split; [lra | reflexivity].
Qed.

(** C5 (the code departs from the statement).  The statement: the entry
    is the missing marker exactly when [q[i] == 0], otherwise it is
    [force[i] / (q[i] * 0.01)], and no division by zero occurs.  The guard
    of the code tests [q[i]], the division is by [q[i] * S].  On binary64
    numbers, for force [1.0] and pressure [5e-324] (lists of equal length)
    the pressure is not zero, the product [q[i] * S] is zero, and the
    division raises; for pressures [0.0] and [50.0] the function returns
    the marker and the quotient [2.0]. *)
Theorem force2coeff_divides_by_zero_behind_guard :
  PrimFloat.eqb Binary64.tiny Binary64.zero = false
  /\ PrimFloat.eqb (PrimFloat.mul Binary64.tiny Binary64.S) Binary64.zero
     = true
  /\ Binary64.force2coeff [Binary64.one] [Binary64.tiny] = None
  /\ Binary64.force2coeff [Binary64.one; Binary64.one]
                          [Binary64.zero; Binary64.fifty]
     = Some [None; Some (PrimFloat.add Binary64.one Binary64.one)].
Proof. vm_compute. repeat split; reflexivity. Qed.

(** ** [q2v]: velocity from dynamic pressure (C6) *)

(** C6.  [q2v] returns the same list for [q] and for [q] with every sign
    flipped; it always returns, index by index,
    [sqrt(2*|q[i]/psf2pa|*287*296.15/100914)], the value for [-q[i]] is the
    value for [q[i]], and the number under the square root is never
    negative. *)
Theorem q2v_depends_on_magnitude_only (q : list R) :
  q2v (Ropp <$> q) = q2v q
  /\ exists vel, q2v q = Some vel
       /\ length vel = length q
       /\ forall i qi, q !! i = Some qi ->
            vel !! i
            = Some (sqrt ((2 * Rabs (qi / psf2pa) * 287 * 296.15) / 100914))
            /\ q2v_value (- qi) = q2v_value qi
            /\ 0 <= (2 * Rabs (qi / psf2pa) * 287 * 296.15) / 100914.
Proof.
  split.
  - rewrite !q2v_eq. f_equal. rewrite <- list_fmap_compose.
    apply list_fmap_ext. intros i x _. apply q2v_value_opp.
  - exists (q2v_value <$> q). split; [apply q2v_eq|].
    split; [apply length_fmap|].
    intros i qi Hqi. rewrite list_lookup_fmap, Hqi. simpl.
    split; [reflexivity|]. split; [apply q2v_value_opp|].
    apply q2v_radicand_nonneg.
Qed.

(** ** [datasplit]: the records and their columns (C7, C8) *)

(** C7.  When every table has its columns of one length (at most five
    tables, at least one), [datasplit] returns one record per table, and
    the record of a table whose columns have length [n] has six lists of
    length [n] whose entries at index [k] are computed from row [k] of the
    table alone. *)
Theorem datasplit_records_aligned (data : list DataFrame) :
  data <> [] ->
  (length data <= 5)%nat ->
  (forall i df, data !! i = Some df -> exists n, equal_columns i df n) ->
  exists res, datasplit data = Some res
    /\ length res = length data
    /\ forall i df n, data !! i = Some df -> equal_columns i df n ->
         exists d, res !! i = Some (Obj d)
           /\ length (X d) = n /\ length (NF d) = n /\ length (AF d) = n
           /\ length (PM d) = n /\ length (CL d) = n /\ length (CD d) = n
           /\ forall k alpha nf af pm q,
                (i = 0%nat -> col_Alpha df !! k = Some alpha) ->
                col_NF df !! k = Some nf -> col_AF df !! k = Some af ->
                col_PM df !! k = Some pm -> col_q df !! k = Some q ->
                Data_at d k = Some (reduce i alpha nf af pm q).
Proof.
  intros Hne Hlen Hcols.
  exists (imap (fun i df => Obj (record i df)) data).
  split.
  { apply datasplit_eq; [exact Hne | exact Hlen |].
    intros i df Hdf. destruct (Hcols i df Hdf) as [n Hn].
    exact (equal_columns_not_short i df n Hn). }
  split; [apply length_imap|].
  intros i df n Hdf Heq. exists (record i df).
  split; [rewrite list_lookup_imap, Hdf; reflexivity|].
  destruct (record_lengths i df n Heq) as (? & ? & ? & ? & ? & ?).
  repeat (split; [assumption|]).
  intros k alpha nf af pm q. apply record_sample.
Qed.

Lemma datasplit_records_aligned_witness :
  exists res, datasplit [angle_table; velocity_table] = Some res
    /\ length res = length [angle_table; velocity_table]
    /\ forall i df n,
         [angle_table; velocity_table] !! i = Some df ->
         equal_columns i df n ->
         exists d, res !! i = Some (Obj d)
           /\ length (X d) = n /\ length (NF d) = n /\ length (AF d) = n
           /\ length (PM d) = n /\ length (CL d) = n /\ length (CD d) = n
           /\ forall k alpha nf af pm q,
                (i = 0%nat -> col_Alpha df !! k = Some alpha) ->
                col_NF df !! k = Some nf -> col_AF df !! k = Some af ->
                col_PM df !! k = Some pm -> col_q df !! k = Some q ->
                Data_at d k = Some (reduce i alpha nf af pm q).
Proof.
  apply (datasplit_records_aligned [angle_table; velocity_table]).
  - discriminate.
  - simpl. lia.
  - intros i df H. exists 2%nat.
    destruct i as [|[|i]]; simpl in H; [| |discriminate];
      injection H as <-; unfold equal_columns; simpl; repeat split.
Defined.

(** C8, as stated, fails.  The required columns of [long_q_table] do not
    all have the same length (its pressure column has two entries, the
    others one), yet [datasplit] returns a record for it; the second
    pressure entry is never read. *)
Lemma datasplit_accepts_unequal_columns :
  (forall n, ~ equal_columns 0 long_q_table n)
  /\ datasplit [long_q_table] = Some [Obj (record 0 long_q_table)]
  /\ length (CL (record 0 long_q_table)) = 1%nat.
Proof.
  split; [|split].
  - intros n (Hn & _ & _ & Hq & _). simpl in Hn, Hq. lia.
  - rewrite datasplit_eq; [reflexivity|discriminate|simpl; lia|].
    intros i df H. destruct i as [|i]; simpl in H; [|discriminate].
    injection H as <-. unfold short_column. simpl. lia.
  - reflexivity.
Qed.

(** C8, amended.  If a run has a column that is read by position and is
    shorter than the column that drives the loop reading it (pressure
    shorter than normal force, normal force shorter than moment, and axial
    force or angle shorter than normal force for the angle run, pressure
    shorter than axial force for a velocity run), [datasplit] raises and
    returns no record for any run: it neither truncates nor skips.
    Lengths are not compared otherwise: whenever [datasplit] returns, no
    run had such a short column and every list of a record keeps the length
    of the column it is computed from, so longer columns give a record
    whose lists differ in length. *)
Theorem datasplit_short_column_raises :
  (forall data : list DataFrame,
      (exists i df, data !! i = Some df /\ short_column i df) ->
      datasplit data = None)
  /\ (forall (data : list DataFrame) (res : list slot) i df d,
         datasplit data = Some res -> data !! i = Some df ->
         res !! i = Some (Obj d) ->
         ~ short_column i df
         /\ length (NF d) = length (col_NF df)
         /\ length (AF d) = length (col_AF df)
         /\ length (PM d) = length (col_PM df)
         /\ length (X d) = match i with
                           | O => length (col_Alpha df)
                           | _ => length (col_q df)
                           end
         /\ length (CL d) = length (col_NF df)
         /\ length (CD d) = match i with
                            | O => length (col_NF df)
                            | _ => length (col_AF df)
                            end).
Proof.
  split.
  - intros data (i & df & Hdf & Hshort).
    apply datasplit_None. exists i, df. split; [exact Hdf|].
    apply run_None. left. exact Hshort.
  - intros data res i df d Hres Hdf Hd.
    destruct (datasplit_record data res Hres i df Hdf) as (_ & Hs & Hrec).
    rewrite Hrec in Hd. injection Hd as <-.
    split; [exact Hs|].
    unfold short_column in Hs.
    destruct i as [|i]; simpl;
      rewrite ?length_zip_with, ?length_NA2LD_out, ?length_fmap,
        ?length_col_mul, ?length_col_div;
      repeat split; lia.
Qed.

Lemma datasplit_short_column_raises_witness :
  datasplit [angle_table; short_q_table] = None.
Proof.
  apply (proj1 datasplit_short_column_raises [angle_table; short_q_table]).
  exists 1%nat, short_q_table. split; [reflexivity|].
  unfold short_column. simpl. lia.
Defined.

(** * Part 5: further properties of the program *)

(** ** [NA2LD] *)

(** X1.  When the axial-force and angle lists are at least as long as the
    normal-force list, [NA2LD] returns the same list twice, with one entry
    per normal force; the entry at [i] is
    [N[i]*sin(L) + A[i]*cos(L)] where
    [L = N[i]*cos(a) - A[i]*sin(a)] and [a] is the angle in radians. *)
Theorem NA2LD_closed_form (N A alphaDeg : list R) :
  (length N <= length A)%nat -> (length N <= length alphaDeg)%nat ->
  exists out, NA2LD N A alphaDeg = Some (out, out)
    /\ length out = length N
    /\ forall i n a d,
         N !! i = Some n -> A !! i = Some a -> alphaDeg !! i = Some d ->
         out !! i
         = Some (n * sin (n * cos (radians d) - a * sin (radians d))
                 + a * cos (n * cos (radians d) - a * sin (radians d))).
Proof.
  intros HA Ha. exists (NA2LD_out N A alphaDeg).
  split; [apply NA2LD_Some; assumption|].
  split; [rewrite length_NA2LD_out; lia|].
  intros i n a d Hn HAi Hd. unfold NA2LD_out.
  rewrite !lookup_zip_with, Hn, HAi, Hd. reflexivity.
Qed.

Lemma NA2LD_closed_form_witness :
  exists out, NA2LD [1; 2] [3; 4; 5] [6; 7] = Some (out, out)
    /\ length out = length [1; 2]
    /\ forall i n a d,
         [1; 2] !! i = Some n -> [3; 4; 5] !! i = Some a ->
         [6; 7] !! i = Some d ->
         out !! i
         = Some (n * sin (n * cos (radians d) - a * sin (radians d))
                 + a * cos (n * cos (radians d) - a * sin (radians d))).
Proof.
  apply (NA2LD_closed_form [1; 2] [3; 4; 5] [6; 7]); simpl; lia.
Defined.

Lemma NA2LD_inv (N A alphaDeg lift drag : list R) :
  NA2LD N A alphaDeg = Some (lift, drag) ->
  (length N <= length A)%nat /\ (length N <= length alphaDeg)%nat
  /\ lift = NA2LD_out N A alphaDeg /\ drag = NA2LD_out N A alphaDeg.
Proof.
  intros H.
  destruct (decide ((length A < length N)%nat
                    \/ (length alphaDeg < length N)%nat)) as [Hs|Hs].
  - rewrite NA2LD_None in H by exact Hs. discriminate.
  - rewrite NA2LD_Some in H by lia. injection H as <- <-.
    repeat split; lia.
Qed.

(** X2.  [NA2LD] raises when the axial-force list or the angle list is
    shorter than the normal-force list; whenever it returns, neither was
    shorter and both returned lists have one entry per normal force. *)
Theorem NA2LD_short_input_raises (N A alphaDeg : list R) :
  ((length A < length N)%nat \/ (length alphaDeg < length N)%nat ->
   NA2LD N A alphaDeg = None)
  /\ forall lift drag, NA2LD N A alphaDeg = Some (lift, drag) ->
       (length N <= length A)%nat /\ (length N <= length alphaDeg)%nat
       /\ length lift = length N /\ length drag = length N.
Proof.
  split; [apply NA2LD_None|].
  intros lift drag H. apply NA2LD_inv in H as (HA & Ha & -> & ->).
  rewrite length_NA2LD_out. repeat split; lia.
Qed.

Lemma NA2LD_short_input_raises_witness :
  NA2LD [1; 2] [3] [5; 6] = None.
Proof.
  apply (proj1 (NA2LD_short_input_raises [1; 2] [3] [5; 6])).
  left. simpl. lia.
Defined.

Lemma NA2LD_value_bounded (n a d : R) :
  NA2LD_value n a d * NA2LD_value n a d <= n * n + a * a.
Proof.
  unfold NA2LD_value.
  set (L := n * cos (radians d) - a * sin (radians d)).
  pose proof (sin2_cos2 L) as H. unfold Rsqr in H.
  set (s := sin L) in *. set (c := cos L) in *.
  assert (E : (n * s + a * c) * (n * s + a * c)
              + (n * c - a * s) * (n * c - a * s)
              = (n * n + a * a) * (s * s + c * c)) by ring.
  rewrite H in E.
  pose proof (Rle_0_sqr (n * c - a * s)) as Hsq. unfold Rsqr in Hsq.
  lra.
Qed.

(** X3.  The returned force never exceeds the measured force in
    magnitude: at every index the square of the returned value is at most
    [N[i]^2 + A[i]^2]. *)
Theorem NA2LD_output_bounded (N A alphaDeg lift drag : list R) :
  NA2LD N A alphaDeg = Some (lift, drag) ->
  forall i x n a,
    lift !! i = Some x -> N !! i = Some n -> A !! i = Some a ->
    x * x <= n * n + a * a.
Proof.
  intros H i x n a Hx Hn Ha.
  apply NA2LD_inv in H as (_ & _ & -> & _).
  unfold NA2LD_out in Hx. rewrite !lookup_zip_with, Hn, Ha in Hx.
  simpl in Hx. destruct (alphaDeg !! i) as [d|]; [|discriminate].
  simpl in Hx. injection Hx as <-. apply NA2LD_value_bounded.
Qed.

Lemma NA2LD_output_bounded_witness :
  NA2LD [0] [1] [0] = Some ([1], [1]) /\ 1 * 1 <= 0 * 0 + 1 * 1.
Proof.
  split; [exact (NA2LD_zero_normal_zero_angle [1])|].
  exact (NA2LD_output_bounded [0] [1] [0] [1] [1]
           (NA2LD_zero_normal_zero_angle [1]) 0%nat 1 0 1
           eq_refl eq_refl eq_refl).
Defined.

(** ** [force2coeff] *)

(** X4.  [force2coeff] raises when the pressure list is shorter than the
    force list; whenever it returns, the pressure list was not shorter and
    the result has one entry per force, whatever the length of the pressure
    list. *)
Theorem force2coeff_short_pressure_raises (force q : list R) :
  ((length q < length force)%nat -> force2coeff force q = None)
  /\ forall c, force2coeff force q = Some c ->
       (length force <= length q)%nat /\ length c = length force.
Proof.
  split; [apply force2coeff_None|].
  intros c H.
  destruct (decide (length q < length force)%nat) as [Hs|Hs].
  - rewrite force2coeff_None in H by exact Hs. discriminate.
  - rewrite force2coeff_Some in H by lia. injection H as <-.
    rewrite length_zip_with. lia.
Qed.

Lemma force2coeff_short_pressure_raises_witness :
  force2coeff [1; 2] [4] = None.
Proof.
  apply (proj1 (force2coeff_short_pressure_raises [1; 2] [4])).
  simpl. lia.
Defined.




(** X6.  The coefficient is proportional to the force: scaling every
    force by [k] scales every computed coefficient by [k] and leaves the
    missing markers, and an exception, where they are. *)
Theorem force2coeff_proportional_to_force (force q : list R) (k : R) :
  force2coeff (col_mul force k) q
  = (fun c : list (option R) =>
       (fun e : option R => (fun x => x * k) <$> e) <$> c)
    <$> force2coeff force q.
Proof.
  destruct (decide (length q < length force)%nat) as [Hs|Hs].
  - rewrite !force2coeff_None by (rewrite ?length_col_mul; exact Hs).
    reflexivity.
  - rewrite !force2coeff_Some by (rewrite ?length_col_mul; lia).
    simpl. f_equal. apply list_eq. intros i. unfold col_mul.
    rewrite list_lookup_fmap, !lookup_zip_with, list_lookup_fmap.
    destruct (force !! i) as [fi|]; [|reflexivity].
    destruct (q !! i) as [qi|]; [|reflexivity]. simpl.
    unfold force2coeff_value.
    destruct (Req_dec_T qi 0); [reflexivity|]. simpl.
    do 2 f_equal. unfold Rdiv. ring.
Qed.

(** ** [q2v] *)

(** The number under the square root, as a positive multiple of [|q|]. *)
Lemma q2v_radicand_eq (qi : R) :
  (2 * Rabs (qi / psf2pa) * 287 * 296.15) / 100914
  = Rabs qi * (2 * 287 * 296.15 / (psf2pa * 100914)).
Proof.
  assert (H : Rabs (qi / psf2pa) = Rabs qi / psf2pa).
  { unfold Rdiv. rewrite Rabs_mult, Rabs_inv.
    rewrite (Rabs_pos_eq psf2pa) by (unfold psf2pa; lra). reflexivity. }
  rewrite H. unfold psf2pa. field. lra.
Qed.

Lemma q2v_value_sqr (qi : R) :
  q2v_value qi * q2v_value qi
  = Rabs qi * (2 * 287 * 296.15 / (psf2pa * 100914)).
Proof.
  unfold q2v_value. rewrite sqrt_sqrt by apply q2v_radicand_nonneg.
  apply q2v_radicand_eq.
Qed.

Lemma q2v_value_zero_iff (qi : R) : q2v_value qi = 0 <-> qi = 0.
Proof.
  split.
  - intros H. pose proof (q2v_value_sqr qi) as Hsq. rewrite H in Hsq.
    assert (Habs : Rabs qi = 0) by (unfold psf2pa in Hsq; lra).
    destruct (Req_dec_T qi 0) as [|Hnz]; [assumption|].
    apply Rabs_no_R0 in Hnz. contradiction.
  - intros ->. unfold q2v_value.
    rewrite q2v_radicand_eq, Rabs_R0, Rmult_0_l. apply sqrt_0.
Qed.

(** X7.  [q2v] never raises and returns one velocity per pressure; each
    velocity is not negative, it is 0 exactly when the pressure is 0, and
    the magnitude of the pressure is recovered from it:
    [|q[i]| = v[i]^2 * psf2pa * 100914 / (2 * 287 * 296.15)]. *)
Theorem q2v_velocity_determines_magnitude (q : list R) :
  exists vel, q2v q = Some vel
    /\ length vel = length q
    /\ forall i qi, q !! i = Some qi ->
         exists v, vel !! i = Some v
           /\ 0 <= v
           /\ (v = 0 <-> qi = 0)
           /\ Rabs qi = v * v * psf2pa * 100914 / (2 * 287 * 296.15).
Proof.
  exists (q2v_value <$> q). split; [apply q2v_eq|].
  split; [apply length_fmap|].
  intros i qi Hqi. exists (q2v_value qi).
  rewrite list_lookup_fmap, Hqi.
  split; [reflexivity|].
  split; [apply sqrt_pos|].
  split; [apply q2v_value_zero_iff|].
  rewrite q2v_value_sqr. unfold psf2pa. field. lra.
Qed.

(** X8.  Within one run a sample with the larger pressure magnitude gets
    the larger velocity (or the same). *)
Theorem q2v_monotone_in_magnitude (q : list R) :
  exists vel, q2v q = Some vel
    /\ forall i j a b, q !! i = Some a -> q !! j = Some b ->
         Rabs a <= Rabs b ->
         exists x y, vel !! i = Some x /\ vel !! j = Some y /\ x <= y.
Proof.
  exists (q2v_value <$> q). split; [apply q2v_eq|].
  intros i j a b Ha Hb Hle. exists (q2v_value a), (q2v_value b).
  rewrite !list_lookup_fmap, Ha, Hb.
  split; [reflexivity|]. split; [reflexivity|].
  unfold q2v_value. apply sqrt_le_1_alt. rewrite !q2v_radicand_eq.
  apply Rmult_le_compat_r; [|exact Hle].
  unfold psf2pa. lra.
Qed.

Lemma q2v_value_scale (qi k : R) :
  q2v_value (qi * (k * k)) = Rabs k * q2v_value qi.
Proof.
  unfold q2v_value. rewrite !q2v_radicand_eq.
  rewrite Rabs_mult, (Rabs_pos_eq (k * k)) by nra.
  replace (Rabs qi * (k * k) * (2 * 287 * 296.15 / (psf2pa * 100914)))
    with (Rsqr k * (Rabs qi * (2 * 287 * 296.15 / (psf2pa * 100914))))
    by (unfold Rsqr; ring).
  rewrite sqrt_mult.
  - rewrite sqrt_Rsqr_abs. reflexivity.
  - apply Rle_0_sqr.
  - rewrite <- q2v_radicand_eq. apply q2v_radicand_nonneg.
Qed.

(** X9.  The square-root law: multiplying every pressure by [k^2]
    multiplies every velocity by [|k|]. *)
Theorem q2v_square_root_law (q : list R) (k : R) :
  exists vel, q2v q = Some vel
    /\ q2v (col_mul q (k * k)) = Some ((fun v => Rabs k * v) <$> vel).
Proof.
  exists (q2v_value <$> q). split; [apply q2v_eq|].
  rewrite q2v_eq. f_equal. unfold col_mul.
  rewrite <- !list_fmap_compose. apply list_fmap_ext.
  intros i x _. simpl. apply q2v_value_scale.
Qed.

(** ** [momentTransfer] *)

(** X10.  [momentTransfer] raises exactly when the normal-force list is
    shorter than the moment list; when it returns, the result has one entry
    per moment, whatever the length of the normal-force list. *)
Theorem momentTransfer_raises_iff_short_normal (moment normal : list R)
    (b : R) :
  (momentTransfer moment normal b = None
   <-> (length normal < length moment)%nat)
  /\ forall r, momentTransfer moment normal b = Some r ->
       length r = length moment.
Proof.
  destruct (decide (length normal < length moment)%nat) as [Hs|Hs].
  - rewrite momentTransfer_None by exact Hs.
    split; [tauto | discriminate].
  - rewrite momentTransfer_Some by lia. split.
    + split; [discriminate | lia].
    + intros r H. injection H as <-. rewrite length_zip_with. lia.
Qed.

(** X11.  With no normal force the moment is returned unchanged, for
    every offset [b]. *)
Theorem momentTransfer_zero_normal (moment : list R) (b : R) (k : nat) :
  (length moment <= k)%nat ->
  momentTransfer moment (replicate k 0) b = Some moment.
Proof.
  intros Hk.
  rewrite momentTransfer_Some by (rewrite length_replicate; exact Hk).
  f_equal. apply list_eq. intros i. rewrite lookup_zip_with.
  destruct (moment !! i) as [mi|] eqn:Hmi; [|reflexivity].
  apply lookup_lt_Some in Hmi as Hi.
  rewrite lookup_replicate_2 by lia. simpl.
  f_equal. unfold momentTransfer_value. ring.
Qed.

Lemma momentTransfer_zero_normal_witness :
  momentTransfer [1; 2] (replicate 2 0) 98.42 = Some [1; 2].
Proof.
  apply (momentTransfer_zero_normal [1; 2] 98.42 2). simpl. lia.
Defined.

(** X12.  Two transfers in a row, with offsets [b] and [b'], return; the
    result is the moment shifted by the sum of the two distances times the
    normal force, so the order of the two offsets does not matter. *)
Theorem momentTransfer_twice (moment normal : list R) (b b' : R) :
  (length moment <= length normal)%nat ->
  exists m1 m2,
    momentTransfer moment normal b = Some m1
    /\ momentTransfer m1 normal b' = Some m2
    /\ length m2 = length moment
    /\ forall i mi ni, moment !! i = Some mi -> normal !! i = Some ni ->
         m2 !! i
         = Some (mi - ((0.028829 + 0.07104 - b / 1000)
                       + (0.028829 + 0.07104 - b' / 1000)) * ni).
Proof.
  intros Hlen.
  exists (zip_with (fun mi ni => momentTransfer_value mi ni b) moment normal).
  eexists.
  split; [apply momentTransfer_Some; exact Hlen|].
  split; [apply momentTransfer_Some; rewrite length_zip_with; lia|].
  split; [rewrite !length_zip_with; lia|].
  intros i mi ni Hmi Hni.
  rewrite !lookup_zip_with, Hmi, Hni. simpl.
  f_equal. unfold momentTransfer_value. lra.
Qed.

Lemma momentTransfer_twice_witness :
  exists m1 m2,
    momentTransfer [1; 2] [4; 5] 98.42 = Some m1
    /\ momentTransfer m1 [4; 5] 127 = Some m2
    /\ length m2 = length [1; 2]
    /\ forall i mi ni, [1; 2] !! i = Some mi -> [4; 5] !! i = Some ni ->
         m2 !! i
         = Some (mi - ((0.028829 + 0.07104 - 98.42 / 1000)
                       + (0.028829 + 0.07104 - 127 / 1000)) * ni).
Proof.
  apply (momentTransfer_twice [1; 2] [4; 5] 98.42 127). simpl. lia.
Defined.

(** ** [datasplit] *)

(** X13.  Whenever [datasplit] returns, it was given one to five tables
    and returns one object per table, none left as the initial [0]; the
    forces stored in the object are the raw columns times 4.44822, also for
    the angle run (the rotated forces are not stored), and the abscissa of
    the angle run is the angle column as read. *)
Theorem datasplit_one_record_per_table (data : list DataFrame)
    (res : list slot) :
  datasplit data = Some res ->
  (1 <= length data <= 5)%nat
  /\ length res = length data
  /\ forall i df, data !! i = Some df ->
       exists d, res !! i = Some (Obj d)
         /\ NF d = col_mul (col_NF df) 4.44822
         /\ AF d = col_mul (col_AF df) 4.44822
         /\ (i = 0%nat -> X d = col_Alpha df).
Proof.
  intros Hres.
  destruct (datasplit_inv data res Hres) as (Hne & Hlen & _).
  split; [|split; [exact Hlen|]].
  - split.
    + destruct data; [congruence | simpl; lia].
    + destruct (decide (length data <= 5)%nat) as [|Hbig]; [assumption|].
      assert (H5 : (5 < length data)%nat) by lia.
      apply lookup_lt_is_Some_2 in H5 as [df Hdf].
      destruct (datasplit_record data res Hres 5%nat df Hdf) as (? & _). lia.
  - intros i df Hdf.
    destruct (datasplit_record data res Hres i df Hdf) as (_ & _ & Hrec).
    exists (record i df). split; [exact Hrec|].
    destruct i; simpl; repeat split; intros; congruence.
Qed.

Lemma datasplit_one_record_per_table_witness :
  (1 <= length [angle_table; velocity_table] <= 5)%nat
  /\ length [Obj (record 0 angle_table); Obj (record 1 velocity_table)]
     = length [angle_table; velocity_table]
  /\ forall i df, [angle_table; velocity_table] !! i = Some df ->
       exists d,
         [Obj (record 0 angle_table); Obj (record 1 velocity_table)] !! i
         = Some (Obj d)
         /\ NF d = col_mul (col_NF df) 4.44822
         /\ AF d = col_mul (col_AF df) 4.44822
         /\ (i = 0%nat -> X d = col_Alpha df).
Proof.
  exact (datasplit_one_record_per_table _ _ example_tables_split).
Defined.

(** X14.  The runs are independent: the entry [datasplit] returns at
    index [i] depends only on [i] and on the table at index [i], not on the
    other tables of the list. *)
Theorem datasplit_runs_independent (data data' : list DataFrame)
    (res res' : list slot) (i : nat) :
  datasplit data = Some res -> datasplit data' = Some res' ->
  data !! i = data' !! i ->
  res !! i = res' !! i.
Proof.
  intros Hres Hres' Heq.
  destruct (data !! i) as [df|] eqn:Hdf.
  - destruct (datasplit_record data res Hres i df Hdf) as (_ & _ & ->).
    destruct (datasplit_record data' res' Hres' i df (eq_sym Heq))
      as (_ & _ & ->).
    reflexivity.
  - destruct (datasplit_inv data res Hres) as (_ & Hlen & _).
    destruct (datasplit_inv data' res' Hres') as (_ & Hlen' & _).
    apply lookup_ge_None in Hdf. symmetry in Heq.
    apply lookup_ge_None in Heq.
    rewrite !lookup_ge_None_2 by lia. reflexivity.
Qed.

Lemma angle_table_alone_split :
  datasplit [angle_table] = Some [Obj (record 0 angle_table)].
Proof.
  rewrite datasplit_eq; [reflexivity|discriminate|simpl; lia|].
  intros i df H. destruct i as [|i]; simpl in H; [|discriminate].
  injection H as <-. unfold short_column. simpl. lia.
Qed.

Lemma datasplit_runs_independent_witness :
  [Obj (record 0 angle_table); Obj (record 1 velocity_table)] !! 0%nat
  = [Obj (record 0 angle_table)] !! 0%nat.
Proof.
  exact (datasplit_runs_independent
           [angle_table; velocity_table] [angle_table] _ _ 0%nat
           example_tables_split angle_table_alone_split eq_refl).
Defined.

(** X15.  A velocity run never reads its angle column: replacing the
    angle column of a table at an index other than 0 changes neither what
    [datasplit] returns nor whether it raises. *)
Theorem datasplit_velocity_run_ignores_angle (data : list DataFrame)
    (i : nat) (df : DataFrame) (alpha : list R) :
  (0 < i)%nat -> data !! i = Some df ->
  datasplit
    (<[i := mkDataFrame alpha (col_NF df) (col_AF df) (col_PM df)
                        (col_q df)]> data)
  = datasplit data.
Proof.
  intros Hi Hdf. rewrite !datasplit_runs.
  rewrite length_insert, list_lookup_insert_ne by lia.
  destruct (data !! 0%nat) as [d0|]; [|reflexivity]. bind_step.
  destruct (angle_run d0) as [r0|]; [|reflexivity]. bind_step.
  apply for_each_ext. intros j lst _. unfold fill.
  destruct (decide (i = j)) as [<-|Hne].
  - apply lookup_lt_Some in Hdf as Hlt.
    rewrite list_lookup_insert_eq by exact Hlt. rewrite Hdf. reflexivity.
  - rewrite list_lookup_insert_ne by exact Hne. reflexivity.
Qed.

Lemma datasplit_velocity_run_ignores_angle_witness :
  datasplit
    (<[1%nat := mkDataFrame [7; 8] (col_NF velocity_table)
                  (col_AF velocity_table) (col_PM velocity_table)
                  (col_q velocity_table)]> [angle_table; velocity_table])
  = datasplit [angle_table; velocity_table].
Proof.
  apply (datasplit_velocity_run_ignores_angle
           [angle_table; velocity_table] 1 velocity_table [7; 8]);
    [lia | reflexivity].
Defined.

(** X16.  In every record the missing markers sit exactly at the samples
    whose raw pressure is 0, in [CL] and in [CD] alike. *)
Theorem datasplit_missing_where_pressure_zero (data : list DataFrame)
    (res : list slot) (i : nat) (df : DataFrame) (d : Data) :
  datasplit data = Some res -> data !! i = Some df ->
  res !! i = Some (Obj d) ->
  forall k q, col_q df !! k = Some q ->
    ((k < length (CL d))%nat -> (CL d !! k = Some None <-> q = 0))
    /\ ((k < length (CD d))%nat -> (CD d !! k = Some None <-> q = 0)).
Proof.
  intros Hres Hdf Hd k q Hq.
  destruct (datasplit_record data res Hres i df Hdf) as (_ & _ & Hrec).
  rewrite Hrec in Hd. injection Hd as <-.
  assert (Hz : forall f, force2coeff_value f (q / psf2pa) = None <-> q = 0).
  { intros f. unfold force2coeff_value.
    destruct (Req_dec_T (q / psf2pa) 0) as [Hz|Hnz].
    - split; [|reflexivity]. intros _. unfold psf2pa in Hz.
      apply (Rmult_eq_compat_r 0.020885) in Hz.
      unfold Rdiv in Hz. rewrite Rmult_assoc, Rinv_l, Rmult_1_r in Hz by lra.
      lra.
    - split; [discriminate|]. intros ->. destruct Hnz.
      unfold Rdiv. apply Rmult_0_l. }
  assert (Hcol : forall force : list R,
            (k < length (zip_with force2coeff_value force
                           (col_div (col_q df) psf2pa)))%nat ->
            (zip_with force2coeff_value force (col_div (col_q df) psf2pa)
               !! k = Some None <-> q = 0)).
  { intros force Hk. rewrite length_zip_with in Hk.
    assert (Hf : (k < length force)%nat) by lia.
    apply lookup_lt_is_Some_2 in Hf as [f Hf].
    unfold col_div. rewrite lookup_zip_with, Hf, list_lookup_fmap, Hq.
    simpl. rewrite <- (Hz f). split; congruence. }
  destruct i; simpl; split; apply Hcol.
Qed.

Lemma datasplit_missing_where_pressure_zero_witness :
  ((0 < length (CL (record 1 velocity_table)))%nat ->
   (CL (record 1 velocity_table) !! 0%nat = Some None <-> 0 = 0))
  /\ ((0 < length (CD (record 1 velocity_table)))%nat ->
      (CD (record 1 velocity_table) !! 0%nat = Some None <-> 0 = 0)).
Proof.
  exact (datasplit_missing_where_pressure_zero
           [angle_table; velocity_table] _ 1%nat velocity_table _
           example_tables_split eq_refl eq_refl 0%nat 0 eq_refl).
Defined.

(** ** [read_files] and the main program *)

(** The table [read_files] stores for index [i], or the exception. *)
Lemma read_files_fill (read_csv : string -> list nat -> option DataFrame)
    (files : list string) :
  read_files read_csv files
  = for_each
      (fill (fun i => f ← files !! i;
                      Table <$> read_csv f [0; 1; 2; 3; 4; 5; 6; 8]%nat))
      (range 0 (length files)) (replicate (length files) Int0).
Proof.
  unfold read_files. apply for_each_ext. intros i l _. unfold fill.
  destruct (files !! i) as [f|]; [|reflexivity]. simpl.
  destruct (read_csv f _); reflexivity.
Qed.

(** X17.  [read_files] raises exactly when reading one of the paths
    raises; otherwise it returns one table per path, in the order of the
    paths, each read with rows 0 to 6 and 8 skipped, and no entry is left
    as the initial [0]. *)
Theorem read_files_reads_every_path
    (read_csv : string -> list nat -> option DataFrame)
    (files : list string) :
  (read_files read_csv files = None
   <-> exists i f, files !! i = Some f
         /\ read_csv f [0; 1; 2; 3; 4; 5; 6; 8]%nat = None)
  /\ forall l, read_files read_csv files = Some l ->
       length l = length files
       /\ forall i f, files !! i = Some f ->
            exists t, read_csv f [0; 1; 2; 3; 4; 5; 6; 8]%nat = Some t
                      /\ l !! i = Some (Table t).
Proof.
  rewrite read_files_fill.
  set (g := fun i => f ← files !! i;
                     Table <$> read_csv f [0; 1; 2; 3; 4; 5; 6; 8]%nat).
  split; [split|].
  - intros Hnone.
    destruct (classic (exists i f, files !! i = Some f
                 /\ read_csv f [0; 1; 2; 3; 4; 5; 6; 8]%nat = None))
      as [Hex|Hnex]; [exact Hex|].
    exfalso.
    destruct (fill_range_Some g (length files) Int0) as (l & Hl & _).
    + intros i Hi. apply lookup_lt_is_Some_2 in Hi as [f Hf].
      unfold g. rewrite Hf. simpl.
      destruct (read_csv f _) as [t|] eqn:Ht; [eexists; reflexivity|].
      destruct Hnex. exists i, f. auto.
    + congruence.
  - intros (i & f & Hf & Hread). apply fill_range_None.
    exists i. split; [apply lookup_lt_Some in Hf; exact Hf|].
    unfold g. rewrite Hf. simpl. rewrite Hread. reflexivity.
  - intros l Hl. unfold range in Hl. rewrite Nat.sub_0_r in Hl.
    apply fill_seq_inv in Hl as [Hlen Hlook].
    split; [rewrite Hlen; apply length_replicate|].
    intros i f Hf. specialize (Hlook i).
    apply lookup_lt_Some in Hf as Hi.
    destruct (decide _) in Hlook; [|lia].
    unfold g in Hlook. rewrite Hf in Hlook. simpl in Hlook.
    destruct (read_csv f _) as [t|].
    + exists t. split; [reflexivity | exact Hlook].
    + simpl in Hlook.
      assert (Hin : (i < length l)%nat)
        by (rewrite Hlen, length_replicate; exact Hi).
      apply lookup_lt_is_Some_2 in Hin as [e He]. congruence.
Qed.

(** X18.  The main program: when the five files of the folder are read
    as tables none of which has a short column, the five variables are
    bound, in this order, to the record of the angle run for the first file
    and to the records of the velocity runs for the other four, the run at
    index [i] using [B[i]]. *)
Theorem main_records_in_file_order
    (read_csv : string -> list nat -> option DataFrame) (path : string)
    (t0 t1 t2 t3 t4 : DataFrame) :
  (forall i f t, files path !! i = Some f ->
     [t0; t1; t2; t3; t4] !! i = Some t ->
     read_csv f [0; 1; 2; 3; 4; 5; 6; 8]%nat = Some t) ->
  (forall i t, [t0; t1; t2; t3; t4] !! i = Some t -> ~ short_column i t) ->
  main_records read_csv path
  = Some (Obj (record 0 t0), Obj (record 1 t1), Obj (record 2 t2),
          Obj (record 3 t3), Obj (record 4 t4)).
Proof.
  intros Hread Hcols. unfold main_records.
  assert (Hfiles : read_files read_csv (files path)
                   = Some (Table <$> [t0; t1; t2; t3; t4])).
  { rewrite read_files_fill. apply fill_range_eq; [reflexivity|].
    intros i Hi. simpl in Hi.
    destruct i as [|[|[|[|[|i]]]]]; [| | | | |lia]; simpl.
    - rewrite (Hread 0%nat _ t0 eq_refl eq_refl). reflexivity.
    - rewrite (Hread 1%nat _ t1 eq_refl eq_refl). reflexivity.
    - rewrite (Hread 2%nat _ t2 eq_refl eq_refl). reflexivity.
    - rewrite (Hread 3%nat _ t3 eq_refl eq_refl). reflexivity.
    - rewrite (Hread 4%nat _ t4 eq_refl eq_refl). reflexivity. }
  rewrite Hfiles. bind_step.
  change (tables (Table <$> [t0; t1; t2; t3; t4]))
    with (Some [t0; t1; t2; t3; t4]).
  bind_step.
  rewrite datasplit_eq; [reflexivity | discriminate | simpl; lia |].
  exact Hcols.
Qed.

Lemma main_records_in_file_order_witness :
  main_records (fun _ _ => Some angle_table) "Data"
  = Some (Obj (record 0 angle_table), Obj (record 1 angle_table),
          Obj (record 2 angle_table), Obj (record 3 angle_table),
          Obj (record 4 angle_table)).
Proof.
  apply (main_records_in_file_order (fun _ _ => Some angle_table) "Data"
           angle_table angle_table angle_table angle_table angle_table).
  - intros i f t _ Ht.
    do 5 (destruct i as [|i]; [simpl in Ht; congruence|]). discriminate.
  - intros i t Ht.
    do 5 (destruct i as [|i];
          [simpl in Ht; injection Ht as <-; unfold short_column; simpl; lia|]).
    discriminate.
Defined.
